(** * The tRPC HTTP request handler ([packages/server/src/http/requestHandler.ts])

    A shallow embedding of [requestHandlerInner], of the helpers it is built
    from and of the outer [requestHandler], followed by their properties.

    Conventions of the embedding.

    - JavaScript values are the inductive [value].  A number is a binary64
      float.  An object is the list of its own enumerable properties in
      [for ... in] order, its keys being distinct; it is plain data, with
      [Object.prototype] as its prototype.
    - The prototype chain is modelled where the handler meets it: the lookup
      of the method in [HTTP_METHOD_PROCEDURE_TYPE_MAP] finds the members
      inherited from [Object.prototype]; an assignment to the key [__proto__]
      runs the inherited setter instead of creating a property; reading
      [inputs[index]] goes on to the prototype that such an assignment has
      installed.
    - A call that may throw returns [thrown + A]; [inl] is the thrown value.
      The collaborators that run code supplied with the router or the options
      ([createContext], the transformer, the procedures, [onError],
      [getErrorShape], [responseMeta]) and the built-ins [JSON.parse] and
      [JSON.stringify] may throw, and so may [transformTRPCResponse], which
      runs the output transformer.  The package's own helpers
      [getErrorFromUnknown] and [getHTTPStatusCode] return.
    - The handler runs in the monad [M]: it threads the two mutable locals of
      [requestHandlerInner] ([ctx] and [paths]) and the trace of the
      collaborators it invokes, and it may throw.
    - Functions imported from other files and built-ins are parameters,
      gathered in the class [Externals].  A collaborator is a function of its
      arguments.
    - The calls of a batch are concurrent.  The trace lists their events call
      after call, in path order: the order of the events of one call is the
      program order of its asynchronous task, the relative order of events of
      different calls carries no meaning.  [Promise.all] rejects with the
      reason of the task that settles first; the settling order is given by
      [settle_time].  Every task runs to its end, also when another one has
      rejected: the trace lists the events of all the tasks before those of
      the [catch] block, though a task still running when [Promise.all]
      rejects may invoke its collaborators after the [catch] block has
      invoked its own. *)

From Stdlib Require Import String Ascii ZArith List DecimalString Lia Floats.
From stdpp Require Import base option strings list gmap fin_maps.

Set Warnings "-register-all".

Local Open Scope string_scope.
Local Open Scope Z_scope.
Local Open Scope list_scope.

(** ** JavaScript values *)

Inductive value : Type :=
| VUndefined
| VNull
| VBool (b : bool)
| VNum (n : float)
| VStr (s : string)
| VArr (items : list value)
| VObj (entries : list (string * value)).

(** [typeof v] *)
Definition typeof (v : value) : string :=
  match v with
  | VUndefined => "undefined"
  | VNull => "object"
  | VBool _ => "boolean"
  | VNum _ => "number"
  | VStr _ => "string"
  | VArr _ => "object"
  | VObj _ => "object"
  end.

(** [v == null] *)
Definition loose_eq_null (v : value) : bool :=
  match v with
  | VUndefined | VNull => true
  | _ => false
  end.

(** [Array.isArray(v)] *)
Definition Array_isArray (v : value) : bool :=
  match v with
  | VArr _ => true
  | _ => false
  end.

(** [if (n)] for a number: [0], [-0] and [NaN] are falsy. *)
Definition truthy_number (n : float) : bool :=
  negb (PrimFloat.is_zero n || PrimFloat.is_nan n).

(** [String(index)] for an array index: its canonical decimal spelling. *)
Definition index_key (index : nat) : string :=
  NilZero.string_of_uint (Nat.to_uint index).

(** The own enumerable properties of an object or an array, in
    [for ... in] order. *)
Definition own_entries (v : value) : list (string * value) :=
  match v with
  | VObj entries => entries
  | VArr items => imap (fun index item => (index_key index, item)) items
  | _ => []
  end.

(** The keys visited by [for (const key in v)]. *)
Definition for_in_keys (v : value) : list string := map fst (own_entries v).

Fixpoint assoc_get (entries : list (string * value)) (key : string) : value :=
  match entries with
  | [] => VUndefined
  | (k, v) :: rest => if String.eqb k key then v else assoc_get rest key
  end.

(** [v[key]] for a key that [Object.prototype] and [Array.prototype] do not
    hold; a missing property reads as [undefined]. *)
Definition get_prop (v : value) (key : string) : value :=
  assoc_get (own_entries v) key.

(** The values the setter of [__proto__] accepts as a prototype: objects
    and [null]; it ignores any other value. *)
Definition can_be_prototype (v : value) : bool :=
  match v with
  | VNull | VArr _ | VObj _ => true
  | _ => false
  end.

(** [s.split(',')] *)
Fixpoint split_go (sep : ascii) (s : string) (cur : string) : list string :=
  match s with
  | EmptyString => [cur]
  | String c rest =>
      if Ascii.eqb c sep then cur :: split_go sep rest ""
      else split_go sep rest (String.append cur (String c ""))
  end.

Definition split (sep : ascii) (s : string) : list string := split_go sep s "".

(** The number of occurrences of a character in a string. *)
Fixpoint count_char (c : ascii) (s : string) : nat :=
  match s with
  | EmptyString => 0%nat
  | String a rest =>
      ((if Ascii.eqb a c then 1 else 0) + count_char c rest)%nat
  end.

Definition comma : ascii := ","%char.
Definition dquote : ascii := ascii_of_nat 34.

(** The names of the members of [Object.prototype]: read on an object
    literal, each gives a function, and [__proto__] gives [Object.prototype]
    itself. *)
Definition Object_prototype_members : list string :=
  ["constructor"; "__defineGetter__"; "__defineSetter__"; "hasOwnProperty";
   "__lookupGetter__"; "__lookupSetter__"; "isPrototypeOf";
   "propertyIsEnumerable"; "toString"; "valueOf"; "__proto__";
   "toLocaleString"].

(** ** Errors *)

(** What a JavaScript [throw] can carry.  A [TRPCError] is recorded by the
    options its constructor was given. *)
Inductive thrown : Type :=
| JsError (message : string)
| JsTRPCError (e : TRPCError)
| JsThrown (v : value)
with TRPCError : Type :=
| mkTRPCError (code : string) (message : option string)
    (originalError : option thrown).

Definition code (e : TRPCError) : string :=
  match e with mkTRPCError c _ _ => c end.
Definition message (e : TRPCError) : option string :=
  match e with mkTRPCError _ m _ => m end.
Definition originalError (e : TRPCError) : option thrown :=
  match e with mkTRPCError _ _ o => o end.

(** ** Requests, responses, envelopes *)

(** What the variable [type] of the handler can hold: a procedure type,
    ['unknown'], or the member of [Object.prototype] that the lookup of the
    method has found. *)
Inductive ProcedureType : Type :=
| Query
| Mutation
| Subscription
| Unknown
| Inherited (member : string).

Record HTTPRequest : Type := {
  method : string;
  headers : list (string * string);
  query : list (string * string);
  body : value;
}.

(** [URLSearchParams.has] and [URLSearchParams.get] ([None] is [null]). *)
Definition query_has (q : list (string * string)) (name : string) : bool :=
  existsb (fun kv => String.eqb (fst kv) name) q.

Fixpoint query_get (q : list (string * string)) (name : string)
  : option string :=
  match q with
  | [] => None
  | (k, v) :: rest => if String.eqb k name then Some v else query_get rest name
  end.

Inductive header_value : Type :=
| HUndefined
| HString (s : string)
| HStrings (l : list string).

(** What [responseMeta] returns; an absent member is [None]. *)
Record ResponseMeta : Type := {
  meta_status : option float;
  meta_headers : option (gmap string header_value);
}.

(** The headers of a response are the own properties of its [headers]
    object.  The prototype of that object, which an entry [__proto__] holding
    an array replaces, is read by nothing in this file and is not part of the
    model. *)
Record HTTPResponse : Type := {
  status : float;
  resp_headers : option (gmap string header_value);
  resp_body : option string;
}.

(** The object [input] that [getInputs] builds: its own properties, and its
    prototype once an assignment to [__proto__] has replaced it ([None]: it
    is still [Object.prototype]). *)
Record Inputs : Type := {
  own : gmap string value;
  proto : option value;
}.

(** [input[k] = value].  The key [__proto__] reaches the setter inherited
    from [Object.prototype] and creates no property; the keys of an object
    being distinct, the loop of [getInputs] assigns it at most once. *)
Definition set_input (input : Inputs) (k : string) (v : value) : Inputs :=
  if String.eqb k "__proto__" then
    if can_be_prototype v then {| own := own input; proto := Some v |}
    else input
  else {| own := <[k := v]> (own input); proto := proto input |}.

(** [inputs[index]]: the own property, or else what the prototype holds. *)
Definition input_at (inputs : Inputs) (index : nat) : value :=
  match own inputs !! index_key index with
  | Some v => v
  | None =>
      match proto inputs with
      | Some p => get_prop p (index_key index)
      | None => VUndefined
      end
  end.

Section Handler.

(** The router's context type and its error shape. *)
Context {Ctx Shape : Type}.

(** [TRPCResponse]: an error envelope [{id: null, error}] or a result
    envelope [{id: null, result: {type: 'data', data}}]. *)
Inductive TRPCResponse : Type :=
| TRPCErrorResponse (error : Shape)
| TRPCResultResponse (data : value).

(** The JSON handed to [endResponse]: one envelope, an array of envelopes, or
    [undefined] (what indexing an empty array gives). *)
Inductive ResponseJSON : Type :=
| One (r : TRPCResponse)
| Many (rs : list TRPCResponse)
| NoJSON.

Definition as_array (j : ResponseJSON) : list ResponseJSON :=
  match j with
  | Many rs => map One rs
  | _ => [j]
  end.

(** One element of [rawResults]. *)
Inductive RawResult : Type :=
| ResultData (input : value) (path : string) (data : value)
| ResultError (input : value) (path : string) (error : TRPCError).

(** The collaborators invoked by the handler, with their arguments in the
    order of the source's option objects. *)
Inductive event : Type :=
| EvCreateContext
| EvDeserialize (rawValue : value)
| EvCallProcedure (ctx : option Ctx) (path : string) (input : value)
    (type : ProcedureType)
| EvOnError (error : TRPCError) (path : option string) (input : value)
    (ctx : option Ctx) (type : ProcedureType)
| EvGetErrorShape (error : TRPCError) (type : ProcedureType)
    (path : option string) (input : value) (ctx : option Ctx)
| EvResponseMeta (ctx : option Ctx) (paths : option (list string))
    (type : ProcedureType) (data : list ResponseJSON)
    (errors : list TRPCError).

Record Router : Type := {
  deserialize : value -> thrown + value;
  getErrorShape :
    TRPCError -> ProcedureType -> option string -> value -> option Ctx ->
    thrown + Shape;
}.

Record HTTPHandlerInnerOptions : Type := {
  createContext : unit -> thrown + Ctx;
  onError :
    option (TRPCError -> option string -> value -> option Ctx ->
            ProcedureType -> HTTPRequest -> thrown + unit);
  responseMeta :
    option (option Ctx -> option (list string) -> ProcedureType ->
            list ResponseJSON -> list TRPCError ->
            thrown + option ResponseMeta);
  batching : option bool;
  router : Router;
  req : HTTPRequest;
  path : string;
}.

(** Imported functions and built-ins, and the time at which the task of the
    call at an index settles. *)
Class Externals : Type := {
  callProcedure :
    option Ctx -> Router -> string -> value -> ProcedureType -> thrown + value;
  getErrorFromUnknown : thrown -> TRPCError;
  transformTRPCResponse : Router -> ResponseJSON -> thrown + ResponseJSON;
  getHTTPStatusCode : ResponseJSON -> float;
  JSON_parse : string -> thrown + value;
  JSON_stringify : ResponseJSON -> thrown + string;
  settle_time : nat -> nat;
}.

Context `{Externals}.

(** ** The handler monad *)

(** The mutable locals [ctx] and [paths] of [requestHandlerInner], and the
    trace of collaborator invocations. *)
Record locals : Type := {
  ctx : option Ctx;
  paths : option (list string);
  trace : list event;
}.

Definition initial : locals := {| ctx := None; paths := None; trace := [] |}.

Definition M (A : Type) : Type := locals -> (thrown + A) * locals.

Definition ret {A} (a : A) : M A := fun s => (inr a, s).

Definition throw {A} (e : thrown) : M A := fun s => (inl e, s).

Definition bind {A B} (m : M A) (k : A -> M B) : M B :=
  fun s =>
    match m s with
    | (inl e, s') => (inl e, s')
    | (inr a, s') => k a s'
    end.

Definition try_catch {A} (m : M A) (handler : thrown -> M A) : M A :=
  fun s =>
    match m s with
    | (inl e, s') => handler e s'
    | (inr a, s') => (inr a, s')
    end.

Definition lift {A} (r : thrown + A) : M A := fun s => (r, s).

Definition emit (ev : event) : M unit :=
  fun s =>
    (inr tt, {| ctx := ctx s; paths := paths s; trace := trace s ++ [ev] |}).

Definition get_ctx : M (option Ctx) := fun s => (inr (ctx s), s).

Definition get_paths : M (option (list string)) := fun s => (inr (paths s), s).

Definition set_ctx (c : Ctx) : M unit :=
  fun s => (inr tt, {| ctx := Some c; paths := paths s; trace := trace s |}).

Definition set_paths (p : list string) : M unit :=
  fun s => (inr tt, {| ctx := ctx s; paths := Some p; trace := trace s |}).

Notation "'let*' x ':=' m 'in' k" := (bind m (fun x => k))
  (at level 10, x name, m at level 100, k at level 200, only parsing).
Notation "m ';;' k" := (bind m (fun _ => k))
  (at level 100, k at level 200, right associativity, only parsing).

(** Invoke a collaborator: record the invocation, then return or throw as
    the collaborator does. *)
Definition invoke {A} (ev : event) (r : thrown + A) : M A :=
  emit ev;; lift r.

(** [if (cond) throw e;] *)
Definition throw_if (cond : bool) (e : thrown) : M unit :=
  if cond then throw e else ret tt.

Fixpoint mapM {A B} (f : A -> M B) (l : list A) : M (list B) :=
  match l with
  | [] => ret []
  | a :: rest => let* b := f a in let* bs := mapM f rest in ret (b :: bs)
  end.

(** *** [Promise.all] over the tasks of a batch *)

(** Every task runs to its end, whatever the others do. *)
Fixpoint settle_tasks {A} (tasks : list (M A)) (s : locals)
  : list (thrown + A) * locals :=
  match tasks with
  | [] => ([], s)
  | task :: rest =>
      let '(r, s1) := task s in
      let '(rs, s2) := settle_tasks rest s1 in
      (r :: rs, s2)
  end.

(** The rejection that settles first, with the index of its task. *)
Fixpoint first_rejection {A} (index : nat) (settled : list (thrown + A))
  : option (nat * thrown) :=
  match settled with
  | [] => None
  | r :: rest =>
      let later := first_rejection (S index) rest in
      match r with
      | inr _ => later
      | inl e =>
          match later with
          | Some (j, e') =>
              if Nat.ltb (settle_time j) (settle_time index)
              then Some (j, e') else Some (index, e)
          | None => Some (index, e)
          end
      end
  end.

Fixpoint fulfilled {A} (settled : list (thrown + A)) : list A :=
  match settled with
  | [] => []
  | inr a :: rest => a :: fulfilled rest
  | inl _ :: rest => fulfilled rest
  end.

Definition Promise_all {A} (tasks : list (M A)) : M (list A) :=
  fun s =>
    let '(settled, s') := settle_tasks tasks s in
    match first_rejection 0 settled with
    | Some (_, e) => (inl e, s')
    | None => (inr (fulfilled settled), s')
    end.

(** ** The source, function by function *)

(** The own properties of [HTTP_METHOD_PROCEDURE_TYPE_MAP]. *)
Definition HTTP_METHOD_PROCEDURE_TYPE_MAP : gmap string ProcedureType :=
  {[ "GET" := Query; "POST" := Mutation; "PATCH" := Subscription ]}.

(** [HTTP_METHOD_PROCEDURE_TYPE_MAP[method] ?? 'unknown'].  The table is an
    object literal: a method that names a member of [Object.prototype] finds
    that member, which is neither [null] nor [undefined]. *)
Definition procedure_type_of (method : string) : ProcedureType :=
  match HTTP_METHOD_PROCEDURE_TYPE_MAP !! method with
  | Some kind => kind
  | None =>
      if existsb (String.eqb method) Object_prototype_members
      then Inherited method
      else Unknown
  end.

Definition getRawProcedureInputOrThrow (req : HTTPRequest) : thrown + value :=
  let attempt : thrown + value :=
    if String.eqb (method req) "GET" then
      if negb (query_has (query req) "input") then inr VUndefined
      else
        (* [has] holds, so [get] is a string; [JSON.parse(null)] would
           parse the text "null" *)
        let raw := query_get (query req) "input" in
        JSON_parse (default "null" raw)
    else
      match body req with
      | VStr s => JSON_parse s
      | structured => inr structured
      end in
  match attempt with
  | inl originalError =>
      inl (JsTRPCError (mkTRPCError "PARSE_ERROR" None (Some originalError)))
  | inr rawInput => inr rawInput
  end.

Section Request.

Variable opts : HTTPHandlerInnerOptions.

(** [opts.batching?.enabled ?? true] *)
Definition batchingEnabled : bool := default true (batching opts).

Definition type : ProcedureType := procedure_type_of (method (req opts)).

(** [req.query.get('batch') === '1'] *)
Definition isBatchCall : bool :=
  bool_decide (query_get (query (req opts)) "batch" = Some "1").

(** [onError?.({ error, path, input, ctx, type, req })] *)
Definition report (error : TRPCError) (path : option string) (input : value)
  : M unit :=
  match onError opts with
  | None => ret tt
  | Some hook =>
      let* ctx := get_ctx in
      invoke (EvOnError error path input ctx type)
        (hook error path input ctx type (req opts))
  end.

(** [router.getErrorShape({ error, type, path, input, ctx })] *)
Definition shape (error : TRPCError) (path : option string) (input : value)
  : M Shape :=
  let* ctx := get_ctx in
  invoke (EvGetErrorShape error type path input ctx)
    (getErrorShape (router opts) error type path input ctx).

(** [for (const [key, value] of Object.entries(...)) headers[key] = value].
    The assignment to the key [__proto__] creates no property. *)
Definition assign_headers (headers : gmap string header_value)
    (entries : list (string * header_value)) : gmap string header_value :=
  foldl
    (fun h kv =>
       if String.eqb (fst kv) "__proto__" then h else <[fst kv := snd kv]> h)
    headers entries.

Definition endResponse (untransformedJSON : ResponseJSON)
    (errors : list TRPCError) : M HTTPResponse :=
  let status := getHTTPStatusCode untransformedJSON in
  let headers : gmap string header_value :=
    {[ "Content-Type" := HString "application/json" ]} in
  let* meta :=
    match responseMeta opts with
    | None => ret {| meta_status := None; meta_headers := None |}
    | Some hook =>
        let* ctx := get_ctx in
        let* paths := get_paths in
        let data := as_array untransformedJSON in
        let* m :=
          invoke (EvResponseMeta ctx paths type data errors)
            (hook ctx paths type data errors) in
        ret (default {| meta_status := None; meta_headers := None |} m)
    end in
  let headers :=
    assign_headers headers (map_to_list (default ∅ (meta_headers meta))) in
  let status :=
    match meta_status meta with
    | Some s => if truthy_number s then s else status
    | None => status
    end in
  let* transformedJSON :=
    lift (transformTRPCResponse (router opts) untransformedJSON) in
  let* body := lift (JSON_stringify transformedJSON) in
  ret {| resp_body := Some body; status := status;
         resp_headers := Some headers |}.

Definition deserializeInputValue (rawValue : value) : M value :=
  if negb (String.eqb (typeof rawValue) "undefined")
  then invoke (EvDeserialize rawValue) (deserialize (router opts) rawValue)
  else ret rawValue.

(** The body of the [for ... in] loop of [getInputs], key after key. *)
Fixpoint getInputs_loop (rawInput : value) (keys : list string)
    (input : Inputs) : M Inputs :=
  match keys with
  | [] => ret input
  | k :: rest =>
      let rawValue := get_prop rawInput k in
      let* value := deserializeInputValue rawValue in
      getInputs_loop rawInput rest (set_input input k value)
  end.

Definition getInputs (rawInput : value) : M Inputs :=
  if negb isBatchCall then
    let* v := deserializeInputValue rawInput in
    ret {| own := {[ index_key 0 := v ]}; proto := None |}
  else
    throw_if
      (loose_eq_null rawInput
       || negb (String.eqb (typeof rawInput) "object")
       || Array_isArray rawInput)
      (JsTRPCError
         (mkTRPCError "BAD_REQUEST"
            (Some (String dquote
                     (String.append "input"
                        (String dquote
                           " needs to be an object when doing a batch call"))))
            None));;
    getInputs_loop rawInput (for_in_keys rawInput)
      {| own := ∅; proto := None |}.

(** The asynchronous callback of [paths.map]. *)
Definition call_task (inputs : Inputs) (index : nat) (path : string)
  : M RawResult :=
  let input := input_at inputs index in
  try_catch
    (let* ctx := get_ctx in
     let* output :=
       invoke (EvCallProcedure ctx path input type)
         (callProcedure ctx (router opts) path input type) in
     ret (ResultData input path output))
    (fun _err =>
       let error := getErrorFromUnknown _err in
       report error (Some path) input;;
       ret (ResultError input path error)).

(** [rawResults.flatMap((obj) => (obj.error ? [obj.error] : []))] *)
Definition errors_of (rawResults : list RawResult) : list TRPCError :=
  flat_map
    (fun obj =>
       match obj with
       | ResultError _ _ error => [error]
       | ResultData _ _ _ => []
       end)
    rawResults.

(** The callback of [rawResults.map] that builds [resultEnvelopes]. *)
Definition envelope (obj : RawResult) : M TRPCResponse :=
  match obj with
  | ResultError input path error =>
      let* e := shape error (Some path) input in
      ret (TRPCErrorResponse e)
  | ResultData input path data => ret (TRPCResultResponse data)
  end.

(** The [try] block of [requestHandlerInner]. *)
Definition try_block : M HTTPResponse :=
  throw_if (isBatchCall && negb batchingEnabled)
    (JsError "Batching is not enabled on the server");;
  throw_if
    (match type with Unknown | Subscription => true | _ => false end)
    (JsTRPCError
       (mkTRPCError "METHOD_NOT_SUPPORTED"
          (Some (String.append "Unexpected request method "
                   (method (req opts))))
          None));;
  let* rawInput := lift (getRawProcedureInputOrThrow (req opts)) in
  let paths :=
    if isBatchCall then split comma (path opts) else [path opts] in
  set_paths paths;;
  let* c := invoke EvCreateContext (createContext opts tt) in
  set_ctx c;;
  let* inputs := getInputs rawInput in
  let* rawResults := Promise_all (imap (call_task inputs) paths) in
  let errors := errors_of rawResults in
  let* resultEnvelopes := mapM envelope rawResults in
  let result :=
    if isBatchCall then Many resultEnvelopes
    else match resultEnvelopes with
         | first :: _ => One first
         | [] => NoJSON
         end in
  endResponse result errors.

(** The [catch] block of [requestHandlerInner]. *)
Definition catch_block (_err : thrown) : M HTTPResponse :=
  let error := getErrorFromUnknown _err in
  let* e := shape error None VUndefined in
  let json := One (TRPCErrorResponse e) in
  report error None VUndefined;;
  endResponse json [error].

Definition requestHandlerInner_body : M HTTPResponse :=
  if String.eqb (method (req opts)) "HEAD" then
    ret {| status := 204; resp_headers := None; resp_body := None |}
  else try_catch try_block catch_block.

(** The handler, run from the initial locals: what it returns or throws, and
    the collaborators it invoked. *)
Definition requestHandlerInner : (thrown + HTTPResponse) * list event :=
  let '(r, s) := requestHandlerInner_body initial in (r, trace s).

End Request.

(** ** Runs of the handler's stages *)

Section Runs.

Variable opts : HTTPHandlerInnerOptions.

Implicit Types (s : locals) (evs : list event) (c : option Ctx).
Implicit Types (ps : option (list string)) (e : thrown).

(** The locals after some more invocations. *)
Definition extend s evs : locals :=
  {| ctx := ctx s; paths := paths s; trace := trace s ++ evs |}.

Lemma extend_nil s : extend s [] = s.
Proof. destruct s; unfold extend; simpl. by rewrite app_nil_r. Qed.

Lemma extend_app s evs1 evs2 :
  extend (extend s evs1) evs2 = extend s (evs1 ++ evs2).
Proof. unfold extend; simpl. by rewrite <- app_assoc. Qed.

Lemma invoke_run {A} ev (r : thrown + A) s :
  invoke ev r s = (r, extend s [ev]).
Proof. reflexivity. Qed.

(** The calls of procedures recorded in a trace. *)
Definition is_call (ev : event) : bool :=
  match ev with
  | EvCallProcedure _ _ _ _ => true
  | _ => false
  end.

Definition procedure_calls evs : list event := List.filter is_call evs.

Lemma procedure_calls_app evs1 evs2 :
  procedure_calls (evs1 ++ evs2) = procedure_calls evs1 ++ procedure_calls evs2.
Proof. apply List.filter_app. Qed.

(** *** What it is for the collaborators to return *)

(** The failure observer returns normally whenever it is invoked. *)
Definition onError_returns : Prop :=
  forall hook, onError opts = Some hook ->
    forall error path input ctx type req,
      hook error path input ctx type req = inr tt.

(** The error formatter of the router returns whenever it is invoked. *)
Definition getErrorShape_returns (r : Router) : Prop :=
  forall error type path input ctx,
    exists shaped, getErrorShape r error type path input ctx = inr shaped.

(** [responseMeta] returns whenever it is invoked. *)
Definition responseMeta_returns : Prop :=
  forall hook, responseMeta opts = Some hook ->
    forall ctx paths type data errors,
      exists answer, hook ctx paths type data errors = inr answer.

(** [JSON.stringify(transformTRPCResponse(router, json))] *)
Definition serialized (r : Router) (json : ResponseJSON) : thrown + string :=
  match transformTRPCResponse r json with
  | inl e => inl e
  | inr transformedJSON => JSON_stringify transformedJSON
  end.

(** The output transformer and [JSON.stringify] return whatever the JSON. *)
Definition serialization_returns (r : Router) : Prop :=
  forall json, exists text, serialized r json = inr text.

(** *** The observer and the error formatter *)

Definition report_trace (error : TRPCError) (path : option string)
    (input : value) c : list event :=
  match onError opts with
  | None => []
  | Some _ => [EvOnError error path input c (type opts)]
  end.

(** What the observer answers to a report. *)
Definition report_outcome (error : TRPCError) (path : option string)
    (input : value) c : thrown + unit :=
  match onError opts with
  | None => inr tt
  | Some hook => hook error path input c (type opts) (req opts)
  end.

Lemma report_run error path input s :
  report opts error path input s
  = (report_outcome error path input (ctx s),
     extend s (report_trace error path input (ctx s))).
Proof.
  unfold report, report_outcome, report_trace.
  destruct (onError opts) as [hook|].
  - reflexivity.
  - unfold ret. by rewrite extend_nil.
Qed.

Lemma report_outcome_returns error path input c :
  onError_returns -> report_outcome error path input c = inr tt.
Proof.
  intros Hq. unfold report_outcome.
  destruct (onError opts) as [hook|] eqn:Hhook; [|done]. by apply Hq.
Qed.

Lemma procedure_calls_report error path input c :
  procedure_calls (report_trace error path input c) = [].
Proof. unfold report_trace. by destruct (onError opts). Qed.

Lemma shape_run error path input s :
  shape opts error path input s
  = (getErrorShape (router opts) error (type opts) path input (ctx s),
     extend s [EvGetErrorShape error (type opts) path input (ctx s)]).
Proof. reflexivity. Qed.

(** *** [endResponse] *)

Definition no_meta : ResponseMeta :=
  {| meta_status := None; meta_headers := None |}.

(** What [responseMeta] answers, [{}] when the hook is unset or answers
    nothing. *)
Definition meta_for c ps (json : ResponseJSON) (errors : list TRPCError)
  : thrown + ResponseMeta :=
  match responseMeta opts with
  | None => inr no_meta
  | Some hook =>
      match hook c ps (type opts) (as_array json) errors with
      | inl e => inl e
      | inr answer => inr (default no_meta answer)
      end
  end.

Definition meta_trace c ps (json : ResponseJSON) (errors : list TRPCError)
  : list event :=
  match responseMeta opts with
  | None => []
  | Some _ => [EvResponseMeta c ps (type opts) (as_array json) errors]
  end.

(** The response [endResponse] returns once [responseMeta] has answered
    [meta] and the JSON has been serialized to [text]. *)
Definition response_of (meta : ResponseMeta) (json : ResponseJSON)
    (text : string) : HTTPResponse :=
  {| status :=
       match meta_status meta with
       | Some st => if truthy_number st then st else getHTTPStatusCode json
       | None => getHTTPStatusCode json
       end;
     resp_headers :=
       Some (assign_headers {[ "Content-Type" := HString "application/json" ]}
               (map_to_list (default ∅ (meta_headers meta))));
     resp_body := Some text |}.

(** What [endResponse] returns or throws. *)
Definition response_for c ps (json : ResponseJSON) (errors : list TRPCError)
  : thrown + HTTPResponse :=
  match meta_for c ps json errors with
  | inl e => inl e
  | inr meta =>
      match serialized (router opts) json with
      | inl e => inl e
      | inr text => inr (response_of meta json text)
      end
  end.

Lemma endResponse_run json errors s :
  endResponse opts json errors s
  = (response_for (ctx s) (paths s) json errors,
     extend s (meta_trace (ctx s) (paths s) json errors)).
Proof.
  unfold endResponse, response_for, response_of, meta_for, meta_trace,
    serialized.
  destruct (responseMeta opts) as [hook|].
  - unfold bind at 1. unfold bind at 1. unfold get_ctx at 1.
    unfold bind at 1. unfold get_paths at 1. unfold bind at 1.
    rewrite invoke_run.
    destruct (hook _ _ _ _ _) as [e|answer]; [done|].
    unfold ret at 1. unfold bind, lift.
    destruct (transformTRPCResponse _ _) as [e|t]; [done|].
    by destruct (JSON_stringify t).
  - unfold bind at 1. unfold ret at 1. unfold bind, lift. rewrite extend_nil.
    destruct (transformTRPCResponse _ _) as [e|t]; [done|].
    by destruct (JSON_stringify t).
Qed.

Lemma procedure_calls_meta c ps json errors :
  procedure_calls (meta_trace c ps json errors) = [].
Proof. unfold meta_trace. by destruct (responseMeta opts). Qed.


(** *** [getInputs] *)

(** What [deserializeInputValue] returns or throws, and what it invokes. *)
Definition decode (rawValue : value) : thrown + value :=
  match rawValue with
  | VUndefined => inr rawValue
  | _ => deserialize (router opts) rawValue
  end.

Definition decode_trace (rawValue : value) : list event :=
  match rawValue with
  | VUndefined => []
  | _ => [EvDeserialize rawValue]
  end.

Lemma deserializeInputValue_run rawValue s :
  deserializeInputValue opts rawValue s
  = (decode rawValue, extend s (decode_trace rawValue)).
Proof.
  destruct rawValue; try reflexivity.
  unfold deserializeInputValue, ret; simpl. by rewrite extend_nil.
Qed.

(** The loop of [getInputs] as a fold: its outcome and its invocations. *)
Fixpoint decode_keys (rawInput : value) (keys : list string) (input : Inputs)
  : (thrown + Inputs) * list event :=
  match keys with
  | [] => (inr input, [])
  | k :: rest =>
      let rawValue := get_prop rawInput k in
      match decode rawValue with
      | inl e => (inl e, decode_trace rawValue)
      | inr v =>
          let '(r, evs) := decode_keys rawInput rest (set_input input k v) in
          (r, decode_trace rawValue ++ evs)
      end
  end.

Lemma getInputs_loop_run rawInput keys input s :
  getInputs_loop opts rawInput keys input s
  = (fst (decode_keys rawInput keys input),
     extend s (snd (decode_keys rawInput keys input))).
Proof.
  revert input s. induction keys as [|k rest IH]; intros input s; simpl.
  - unfold ret. by rewrite extend_nil.
  - unfold bind. rewrite deserializeInputValue_run.
    destruct (decode (get_prop rawInput k)) as [e|v]; [reflexivity|].
    rewrite IH, extend_app.
    by destruct (decode_keys rawInput rest (set_input input k v)).
Qed.

Lemma procedure_calls_decode rawValue :
  procedure_calls (decode_trace rawValue) = [].
Proof. by destruct rawValue. Qed.

Lemma procedure_calls_decode_keys rawInput keys input :
  procedure_calls (snd (decode_keys rawInput keys input)) = [].
Proof.
  revert input. induction keys as [|k rest IH]; intros input; simpl; [done|].
  destruct (decode (get_prop rawInput k)) as [e|v]; simpl.
  - apply procedure_calls_decode.
  - specialize (IH (set_input input k v)).
    destruct (decode_keys rawInput rest (set_input input k v)); simpl in *.
    by rewrite procedure_calls_app, procedure_calls_decode, IH.
Qed.

(** The prototype of the inputs after the loop: the decoded value of the key
    [__proto__] when the setter accepts it. *)
Definition proto_after (rawInput : value) (keys : list string)
    (before : option value) : option value :=
  if in_dec string_dec "__proto__" keys then
    match decode (get_prop rawInput "__proto__") with
    | inr v => if can_be_prototype v then Some v else before
    | inl _ => before
    end
  else before.

Lemma own_set_input_other input k v k' :
  k' <> k -> own (set_input input k v) !! k' = own input !! k'.
Proof.
  intros Hne. unfold set_input.
  destruct (String.eqb k "__proto__"); [by destruct (can_be_prototype v)|].
  simpl. by rewrite lookup_insert_ne.
Qed.

Lemma own_set_input_proto input v :
  own (set_input input "__proto__" v) = own input.
Proof. unfold set_input. simpl. by destruct (can_be_prototype v). Qed.

Lemma own_set_input_same input k v :
  k <> "__proto__" -> own (set_input input k v) !! k = Some v.
Proof.
  intros Hne. unfold set_input. apply String.eqb_neq in Hne. rewrite Hne.
  simpl. apply lookup_insert_eq.
Qed.

Lemma proto_set_input input k v :
  proto (set_input input k v)
  = if String.eqb k "__proto__" then
      if can_be_prototype v then Some v else proto input
    else proto input.
Proof.
  unfold set_input. destruct (String.eqb k "__proto__"); [|done].
  by destruct (can_be_prototype v).
Qed.

(** When the loop returns, every visited value has been decoded; each
    decoded value is stored under its key as spelled, but for the key
    [__proto__], which is never stored and sets the prototype; the other keys
    are left alone. *)
Lemma decode_keys_inv rawInput keys input inputs :
  fst (decode_keys rawInput keys input) = inr inputs ->
  snd (decode_keys rawInput keys input)
  = flat_map (fun k => decode_trace (get_prop rawInput k)) keys
  /\ (forall k, In k keys ->
        exists v, decode (get_prop rawInput k) = inr v
                  /\ (k <> "__proto__" -> own inputs !! k = Some v))
  /\ (forall k, ~ In k keys \/ k = "__proto__" ->
        own inputs !! k = own input !! k)
  /\ proto inputs = proto_after rawInput keys (proto input).
Proof.
  revert input. induction keys as [|k rest IH]; intros input; simpl.
  - intros [= <-]. unfold proto_after. simpl. repeat split; try done.
  - destruct (decode (get_prop rawInput k)) as [e|v] eqn:Hv; [done|].
    specialize (IH (set_input input k v)).
    destruct (decode_keys rawInput rest (set_input input k v)) as [r evs].
    simpl in *. intros ->.
    destruct (IH eq_refl) as (-> & Hin & Hout & Hproto).
    split; [done|]. split; [|split].
    + intros k' Hk'.
      destruct (in_dec string_dec k' rest) as [Hr|Hr]; [by apply Hin|].
      destruct Hk' as [<-|Hk']; [|done].
      exists v. split; [done|]. intros Hne.
      rewrite Hout by (by left). by apply own_set_input_same.
    + intros k' Hk'. destruct Hk' as [Hk'| ->].
      * rewrite Hout by (left; tauto).
        apply own_set_input_other. intros ->. tauto.
      * rewrite Hout by (by right).
        destruct (string_dec k "__proto__") as [->|Hne].
        -- by rewrite own_set_input_proto.
        -- by apply own_set_input_other.
    + rewrite Hproto, proto_set_input. unfold proto_after.
      destruct (String.eqb k "__proto__") eqn:Hk.
      * apply String.eqb_eq in Hk as ->. rewrite Hv.
        destruct (in_dec string_dec "__proto__" ("__proto__" :: rest))
          as [_|Hno]; [|destruct Hno; by left].
        destruct (in_dec string_dec "__proto__" rest); [|done].
        by destruct (can_be_prototype v).
      * apply String.eqb_neq in Hk.
        destruct (in_dec string_dec "__proto__" rest) as [Hrest|Hrest];
          destruct (in_dec string_dec "__proto__" (k :: rest)) as [Hall|Hall];
          try done.
        -- destruct Hall. by right.
        -- by destruct Hall.
Qed.

(** The loop fails only when the transformer throws on the value of one of
    the keys. *)
Lemma decode_keys_throws rawInput keys input e :
  fst (decode_keys rawInput keys input) = inl e ->
  exists k, In k keys /\ decode (get_prop rawInput k) = inl e.
Proof.
  revert input. induction keys as [|k rest IH]; intros input; simpl; [done|].
  destruct (decode (get_prop rawInput k)) as [e'|v] eqn:Hv.
  - intros [= <-]. exists k. split; [by left|done].
  - specialize (IH (set_input input k v)).
    destruct (decode_keys rawInput rest (set_input input k v)) as [r evs].
    simpl in *. intros ->. destruct (IH eq_refl) as (k' & Hk' & Hdec).
    exists k'. split; [by right|done].
Qed.

(** The loop returns when every visited value decodes. *)
Lemma decode_keys_returns rawInput keys input :
  (forall k, In k keys -> exists v, decode (get_prop rawInput k) = inr v) ->
  exists inputs, fst (decode_keys rawInput keys input) = inr inputs.
Proof.
  intros Hall.
  destruct (fst (decode_keys rawInput keys input)) as [e|inputs] eqn:Hrun;
    [|by eexists].
  destruct (decode_keys_throws _ _ _ _ Hrun) as (k & Hk & Hdec).
  destruct (Hall k Hk) as [v Hv]. congruence.
Qed.

Definition bad_batch_input : thrown :=
  JsTRPCError
    (mkTRPCError "BAD_REQUEST"
       (Some (String dquote
                (String.append "input"
                   (String dquote
                      " needs to be an object when doing a batch call"))))
       None).

(** The object-shape check of a batch call. *)
Definition not_an_object (rawInput : value) : bool :=
  loose_eq_null rawInput
  || negb (String.eqb (typeof rawInput) "object")
  || Array_isArray rawInput.

Definition empty_inputs : Inputs := {| own := ∅; proto := None |}.

(** [getInputs] as a whole: its outcome and its invocations. *)
Definition decode_inputs (rawInput : value) : (thrown + Inputs) * list event :=
  if negb (isBatchCall opts) then
    (match decode rawInput with
     | inl e => inl e
     | inr v => inr {| own := {[ index_key 0 := v ]}; proto := None |}
     end, decode_trace rawInput)
  else if not_an_object rawInput then (inl bad_batch_input, [])
  else decode_keys rawInput (for_in_keys rawInput) empty_inputs.

Lemma getInputs_run rawInput s :
  getInputs opts rawInput s
  = (fst (decode_inputs rawInput), extend s (snd (decode_inputs rawInput))).
Proof.
  unfold getInputs, decode_inputs.
  destruct (negb (isBatchCall opts)).
  - unfold bind. rewrite deserializeInputValue_run.
    by destruct (decode rawInput).
  - unfold bind, throw_if, not_an_object, bad_batch_input.
    destruct (loose_eq_null rawInput
              || negb (String.eqb (typeof rawInput) "object")
              || Array_isArray rawInput); simpl.
    + unfold throw. by rewrite extend_nil.
    + apply getInputs_loop_run.
Qed.

Lemma procedure_calls_decode_inputs rawInput :
  procedure_calls (snd (decode_inputs rawInput)) = [].
Proof.
  unfold decode_inputs. destruct (negb (isBatchCall opts)); simpl.
  - apply procedure_calls_decode.
  - destruct (not_an_object rawInput); [done|].
    apply procedure_calls_decode_keys.
Qed.

Lemma index_key_not_proto index : index_key index <> "__proto__".
Proof. unfold index_key. destruct (Nat.to_uint index); discriminate. Qed.

Lemma assoc_get_missing entries k :
  ~ In k (map fst entries) -> assoc_get entries k = VUndefined.
Proof.
  induction entries as [|[k' v] rest IH]; simpl; [done|]. intros Hk.
  destruct (String.eqb k' k) eqn:Heq.
  - apply String.eqb_eq in Heq. destruct Hk. by left.
  - apply IH. intros Hin. apply Hk. by right.
Qed.

(** What the call at a position of a batch reads, once the inputs are
    decoded: the decoded value of the key that spells the position, or else
    what the decoded value of the key [__proto__] holds at that key, if the
    setter accepted it as the prototype. *)
Lemma input_at_decoded rawInput inputs index :
  fst (decode_keys rawInput (for_in_keys rawInput) empty_inputs) = inr inputs ->
  (In (index_key index) (for_in_keys rawInput) ->
   decode (get_prop rawInput (index_key index)) = inr (input_at inputs index))
  /\ (~ In (index_key index) (for_in_keys rawInput) ->
      exists p,
        decode (get_prop rawInput "__proto__") = inr p
        /\ input_at inputs index
           = if can_be_prototype p then get_prop p (index_key index)
             else VUndefined).
Proof.
  intros Hrun.
  destruct (decode_keys_inv _ _ _ _ Hrun) as (_ & Hin & Hout & Hproto).
  unfold input_at. split.
  - intros Hk. destruct (Hin _ Hk) as (v & Hv & Hown).
    by rewrite (Hown (index_key_not_proto index)).
  - intros Hk. rewrite (Hout (index_key index)) by (by left). simpl.
    rewrite Hproto. unfold proto_after. simpl.
    destruct (in_dec string_dec "__proto__" (for_in_keys rawInput)) as [Hp|Hp].
    + destruct (Hin _ Hp) as (p & Hdec & _). rewrite Hdec.
      exists p. split; [done|]. by destruct (can_be_prototype p).
    + exists VUndefined. split; [|done]. unfold get_prop.
      by rewrite assoc_get_missing.
Qed.

(** *** One call of the batch *)

(** What the task of the call at [index] returns or throws. *)
Definition task_outcome c (inputs : Inputs) (index : nat) (path : string)
  : thrown + RawResult :=
  let input := input_at inputs index in
  match callProcedure c (router opts) path input (type opts) with
  | inr output => inr (ResultData input path output)
  | inl _err =>
      let error := getErrorFromUnknown _err in
      match onError opts with
      | None => inr (ResultError input path error)
      | Some hook =>
          match hook error (Some path) input c (type opts) (req opts) with
          | inr _ => inr (ResultError input path error)
          | inl thrown_by_hook => inl thrown_by_hook
          end
      end
  end.

Definition task_trace c (inputs : Inputs) (index : nat) (path : string)
  : list event :=
  let input := input_at inputs index in
  EvCallProcedure c path input (type opts)
  :: match callProcedure c (router opts) path input (type opts) with
     | inr _ => []
     | inl _err =>
         report_trace (getErrorFromUnknown _err) (Some path) input c
     end.

Lemma call_task_run inputs index path s :
  call_task opts inputs index path s
  = (task_outcome (ctx s) inputs index path,
     extend s (task_trace (ctx s) inputs index path)).
Proof.
  unfold call_task, task_outcome, task_trace, try_catch, bind, get_ctx.
  rewrite invoke_run.
  destruct (callProcedure (ctx s) (router opts) path (input_at inputs index)
              (type opts)) as [err|output]; [|reflexivity].
  unfold report, report_trace. destruct (onError opts) as [hook|].
  - unfold bind, get_ctx. rewrite invoke_run. simpl.
    destruct (hook _ _ _ _ _ _) as [e|[]]; by rewrite extend_app.
  - reflexivity.
Qed.

(** The outcome of the call at [index] once the observer has returned. *)
Definition task_result c (inputs : Inputs) (index : nat) (path : string)
  : RawResult :=
  let input := input_at inputs index in
  match callProcedure c (router opts) path input (type opts) with
  | inr output => ResultData input path output
  | inl _err => ResultError input path (getErrorFromUnknown _err)
  end.

Lemma task_outcome_returns c inputs index path :
  onError_returns ->
  task_outcome c inputs index path = inr (task_result c inputs index path).
Proof.
  intros Hq. unfold task_outcome, task_result.
  destruct (callProcedure _ _ _ _ _); [|done].
  destruct (onError opts) as [hook|] eqn:Hhook; [|done].
  by rewrite (Hq hook).
Qed.

(** A task that returns returns the outcome of its call. *)
Lemma task_outcome_inr c inputs index path obj :
  task_outcome c inputs index path = inr obj ->
  obj = task_result c inputs index path.
Proof.
  unfold task_outcome, task_result.
  destruct (callProcedure _ _ _ _ _); [|by intros [= <-]].
  destruct (onError opts) as [hook|]; [|by intros [= <-]].
  by destruct (hook _ _ _ _ _ _); intros [= <-].
Qed.

Lemma procedure_calls_task c inputs index path :
  procedure_calls (task_trace c inputs index path)
  = [EvCallProcedure c path (input_at inputs index) (type opts)].
Proof.
  unfold task_trace. simpl. f_equal.
  destruct (callProcedure _ _ _ _ _); [|done].
  apply procedure_calls_report.
Qed.

(** *** The batch as a whole *)

Lemma settle_tasks_imap {A} (f : nat -> string -> M A)
    (g : option Ctx -> nat -> string -> thrown + A)
    (t : option Ctx -> nat -> string -> list event) l s :
  (forall index path s', f index path s'
     = (g (ctx s') index path, extend s' (t (ctx s') index path))) ->
  settle_tasks (imap f l) s
  = (imap (g (ctx s)) l, extend s (concat (imap (t (ctx s)) l))).
Proof.
  revert f g t s. induction l as [|p l IH]; intros f g t s Hf; simpl.
  - by rewrite extend_nil.
  - rewrite Hf.
    rewrite (IH (f ∘ S) (fun c => g c ∘ S) (fun c => t c ∘ S)).
    + by rewrite extend_app.
    + intros index path s'. apply Hf.
Qed.

Lemma first_rejection_none {A} (g : nat -> string -> thrown + A)
    (r : nat -> string -> A) l index :
  (forall i p, g i p = inr (r i p)) ->
  first_rejection index (imap g l) = None
  /\ fulfilled (imap g l) = imap r l.
Proof.
  intros Hg. revert g r index Hg.
  induction l as [|p l IH]; intros g r index Hg; simpl; [done|].
  rewrite Hg.
  destruct (IH (g ∘ S) (r ∘ S) (S index)) as [-> ->]; [|done].
  intros i q. apply Hg.
Qed.

(** The rejection [Promise.all] reports is the reason of a task that
    rejected, and no rejected task settles before that one. *)
Lemma first_rejection_some {A} (l : list (thrown + A)) (n j : nat) e :
  first_rejection n l = Some (j, e) ->
  exists k,
    j = (n + k)%nat
    /\ l !! k = Some (inl e)
    /\ forall k' e', l !! k' = Some (inl e') ->
         (settle_time j <= settle_time (n + k'))%nat.
Proof.
  revert n j e. induction l as [|r rest IH]; intros n j e; simpl; [done|].
  destruct r as [e0|a].
  - destruct (first_rejection (S n) rest) as [[j' e']|] eqn:Hlater.
    + destruct (IH _ _ _ Hlater) as (k & -> & Hat & Hmin).
      assert (Hmin' : forall k' e'', rest !! k' = Some (inl e'') ->
                (settle_time (S n + k) <= settle_time (n + S k'))%nat).
      { intros k' e'' Hk'. specialize (Hmin k' e'' Hk').
        by replace (n + S k')%nat with (S n + k')%nat by lia. }
      destruct (Nat.ltb_spec (settle_time (S n + k)) (settle_time n))
        as [Hlt|Hge].
      * intros [= <- <-]. exists (S k).
        split; [lia|]. split; [done|].
        intros [|k'] e'' Hk'; simpl in Hk'.
        -- rewrite Nat.add_0_r. by apply Nat.lt_le_incl.
        -- by apply (Hmin' k' e'').
      * intros [= <- <-]. exists 0%nat.
        split; [lia|]. split; [done|].
        intros [|k'] e'' Hk'; simpl in Hk'.
        -- by rewrite Nat.add_0_r.
        -- etrans; [exact Hge|by apply (Hmin' k' e'')].
    + intros [= <- <-]. exists 0%nat. split; [lia|]. split; [done|].
      intros [|k'] e'' Hk'; simpl in Hk'; [by rewrite Nat.add_0_r|].
      exfalso. clear IH. revert Hlater Hk'. generalize (S n). revert k'.
      induction rest as [|r rest IHrest]; intros k' m; simpl; [done|].
      destruct r as [e1|a1].
      * by destruct (first_rejection (S m) rest) as [[? ?]|];
          [destruct (_ <? _)%nat|].
      * destruct k' as [|k']; simpl; [done|]. apply IHrest.
  - intros Hlater. destruct (IH _ _ _ Hlater) as (k & -> & Hat & Hmin).
    exists (S k). split; [lia|]. split; [done|].
    intros [|k'] e'' Hk'; simpl in Hk'; [done|].
    specialize (Hmin k' e'' Hk').
    by replace (n + S k')%nat with (S n + k')%nat by lia.
Qed.

Lemma first_rejection_none_all {A} (l : list (thrown + A)) (n : nat) :
  first_rejection n l = None -> l = map inr (fulfilled l).
Proof.
  revert n. induction l as [|r rest IH]; intros n; simpl; [done|].
  destruct r as [e|a].
  - by destruct (first_rejection (S n) rest) as [[? ?]|];
      [destruct (_ <? _)%nat|].
  - intros Hnone. simpl. f_equal. by apply (IH (S n)).
Qed.

(** The paths of the request, in call order. *)
Definition request_paths : list string :=
  if isBatchCall opts then split comma (path opts) else [path opts].

(** What the tasks of the request settle to. *)
Definition settled c (inputs : Inputs) : list (thrown + RawResult) :=
  imap (task_outcome c inputs) request_paths.

Definition tasks_trace c (inputs : Inputs) : list event :=
  concat (imap (task_trace c inputs) request_paths).

Lemma Promise_all_run inputs s :
  Promise_all (imap (call_task opts inputs) request_paths) s
  = (match first_rejection 0 (settled (ctx s) inputs) with
     | Some (_, e) => inl e
     | None => inr (fulfilled (settled (ctx s) inputs))
     end,
     extend s (tasks_trace (ctx s) inputs)).
Proof.
  unfold Promise_all, settled, tasks_trace.
  rewrite (settle_tasks_imap _ (fun built => task_outcome built inputs)
             (fun built => task_trace built inputs))
    by (intros; apply call_task_run).
  by destruct (first_rejection 0 _) as [[j e]|].
Qed.

(** When no task rejects, the outcomes are those of the calls, in path
    order. *)
Lemma settled_fulfilled c inputs :
  first_rejection 0 (settled c inputs) = None ->
  fulfilled (settled c inputs) = imap (task_result c inputs) request_paths.
Proof.
  intros Hnone. pose proof (first_rejection_none_all _ _ Hnone) as Hall.
  apply list_eq. intros i.
  apply (f_equal (fun l => l !! i)) in Hall.
  unfold settled in *. rewrite list_lookup_fmap, list_lookup_imap in Hall.
  rewrite list_lookup_imap.
  destruct (request_paths !! i) as [p|]; simpl in *.
  - destruct (fulfilled _ !! i) as [obj|]; simpl in *; [|done].
    injection Hall as Hall. by rewrite (task_outcome_inr _ _ _ _ _ Hall).
  - by destruct (fulfilled _ !! i).
Qed.

Lemma settled_returns c inputs :
  onError_returns ->
  first_rejection 0 (settled c inputs) = None.
Proof.
  intros Hq.
  apply (first_rejection_none (task_outcome c inputs) (task_result c inputs)).
  intros i p. by apply task_outcome_returns.
Qed.

Lemma procedure_calls_concat_imap (t : nat -> string -> list event)
    (ev : nat -> string -> event) l :
  (forall index path, procedure_calls (t index path) = [ev index path]) ->
  procedure_calls (concat (imap t l)) = imap ev l.
Proof.
  revert t ev. induction l as [|p l IH]; intros t ev Ht; simpl; [done|].
  rewrite procedure_calls_app, Ht. simpl. f_equal.
  apply IH. intros index path. apply Ht.
Qed.

Lemma procedure_calls_tasks c inputs :
  procedure_calls (tasks_trace c inputs)
  = imap (fun index path =>
            EvCallProcedure c path (input_at inputs index) (type opts))
      request_paths.
Proof.
  apply procedure_calls_concat_imap. apply procedure_calls_task.
Qed.

(** *** The envelopes *)

(** [env] is the envelope of the outcome [obj]. *)
Definition envelope_for c (obj : RawResult) (env : TRPCResponse) : Prop :=
  match obj with
  | ResultError input path error =>
      exists shaped,
        getErrorShape (router opts) error (type opts) (Some path) input c
        = inr shaped
        /\ env = TRPCErrorResponse shaped
  | ResultData _ _ data => env = TRPCResultResponse data
  end.

Definition envelope_trace c (obj : RawResult) : list event :=
  match obj with
  | ResultError input path error =>
      [EvGetErrorShape error (type opts) (Some path) input c]
  | ResultData _ _ _ => []
  end.

(** [rawResults.map(...)]: the envelopes, or what the error formatter threw
    first, and the invocations of the formatter. *)
Fixpoint envelopes_of c (rawResults : list RawResult)
  : (thrown + list TRPCResponse) * list event :=
  match rawResults with
  | [] => (inr [], [])
  | ResultData _ _ data :: rest =>
      let '(r, evs) := envelopes_of c rest in
      (match r with
       | inl e => inl e
       | inr envs => inr (TRPCResultResponse data :: envs)
       end, evs)
  | ResultError input path error :: rest =>
      let ev := EvGetErrorShape error (type opts) (Some path) input c in
      match getErrorShape (router opts) error (type opts) (Some path) input c
      with
      | inl e => (inl e, [ev])
      | inr shaped =>
          let '(r, evs) := envelopes_of c rest in
          (match r with
           | inl e => inl e
           | inr envs => inr (TRPCErrorResponse shaped :: envs)
           end, ev :: evs)
      end
  end.

Lemma mapM_envelope_run rawResults s :
  mapM (envelope opts) rawResults s
  = (fst (envelopes_of (ctx s) rawResults),
     extend s (snd (envelopes_of (ctx s) rawResults))).
Proof.
  revert s. induction rawResults as [|obj rest IH]; intros s; simpl.
  - unfold ret. by rewrite extend_nil.
  - destruct obj as [input path data|input path error]; simpl.
    + unfold bind at 1. unfold ret at 1. unfold bind at 1. rewrite IH.
      destruct (envelopes_of (ctx s) rest) as [[e|envs] evs]; done.
    + unfold bind at 1. unfold bind at 1. rewrite shape_run.
      destruct (getErrorShape _ _ _ _ _ _) as [e|shaped]; [done|].
      unfold ret at 1. unfold bind at 1. rewrite IH. simpl.
      destruct (envelopes_of (ctx s) rest) as [[e|envs] evs]; simpl;
        by rewrite extend_app.
Qed.

(** When the formatter has returned every time, there is one envelope per
    outcome, in order, and the formatter was invoked once per failure. *)
Lemma envelopes_of_inv c rawResults envs :
  fst (envelopes_of c rawResults) = inr envs ->
  Forall2 (envelope_for c) rawResults envs
  /\ snd (envelopes_of c rawResults) = flat_map (envelope_trace c) rawResults.
Proof.
  revert envs. induction rawResults as [|obj rest IH]; intros envs; simpl.
  - intros [= <-]. split; [constructor|done].
  - destruct obj as [input path data|input path error].
    + destruct (envelopes_of c rest) as [[e|envs'] evs]; simpl; [done|].
      intros [= <-]. destruct (IH envs' eq_refl) as [Hall Htrace].
      split; [by constructor|done].
    + destruct (getErrorShape _ _ _ _ _ _) as [e|shaped] eqn:Hshape; [done|].
      destruct (envelopes_of c rest) as [[e|envs'] evs]; simpl; [done|].
      intros [= <-]. destruct (IH envs' eq_refl) as [Hall Htrace].
      simpl in *. split; [|by rewrite Htrace].
      constructor; [|done]. by exists shaped.
Qed.


Lemma procedure_calls_envelopes c rawResults :
  procedure_calls (snd (envelopes_of c rawResults)) = [].
Proof.
  induction rawResults as [|obj rest IH]; simpl; [done|].
  destruct obj as [input path data|input path error].
  - by destruct (envelopes_of c rest).
  - destruct (getErrorShape _ _ _ _ _ _); [done|].
    by destruct (envelopes_of c rest).
Qed.


(** *** The whole request *)

Definition is_head : bool := String.eqb (method (req opts)) "HEAD".

(** Gate 1: a batch is requested and batching is disabled. *)
Definition batching_rejected : bool :=
  isBatchCall opts && negb (batchingEnabled opts).

(** Gate 2: the method maps to a kind this transport does not serve. *)
Definition method_rejected : bool :=
  match type opts with
  | Unknown | Subscription => true
  | _ => false
  end.

Definition batching_disabled_error : thrown :=
  JsError "Batching is not enabled on the server".

Definition method_not_supported_error : thrown :=
  JsTRPCError
    (mkTRPCError "METHOD_NOT_SUPPORTED"
       (Some (String.append "Unexpected request method " (method (req opts))))
       None).

(** The request fails at a request-level gate with the error [e], the
    context built so far being [c]. *)
Inductive gate_failure : thrown -> option Ctx -> Prop :=
| batching_gate :
    is_head = false ->
    batching_rejected = true ->
    gate_failure batching_disabled_error None
| method_gate :
    is_head = false ->
    batching_rejected = false ->
    method_rejected = true ->
    gate_failure method_not_supported_error None
| parse_gate e :
    is_head = false ->
    batching_rejected = false ->
    method_rejected = false ->
    getRawProcedureInputOrThrow (req opts) = inl e ->
    gate_failure e None
| context_gate rawInput e :
    is_head = false ->
    batching_rejected = false ->
    method_rejected = false ->
    getRawProcedureInputOrThrow (req opts) = inr rawInput ->
    createContext opts tt = inl e ->
    gate_failure e None
| inputs_gate rawInput built e :
    is_head = false ->
    batching_rejected = false ->
    method_rejected = false ->
    getRawProcedureInputOrThrow (req opts) = inr rawInput ->
    createContext opts tt = inr built ->
    fst (getInputs opts rawInput initial) = inl e ->
    gate_failure e (Some built).

(** The request passes every request-level gate, with the raw input, the
    context and the decoded inputs it then has. *)
Definition dispatches (rawInput : value) (built : Ctx) (inputs : Inputs)
  : Prop :=
  is_head = false
  /\ batching_rejected = false
  /\ method_rejected = false
  /\ getRawProcedureInputOrThrow (req opts) = inr rawInput
  /\ createContext opts tt = inr built
  /\ fst (getInputs opts rawInput initial) = inr inputs.

Lemma getInputs_outcome rawInput :
  fst (getInputs opts rawInput initial) = fst (decode_inputs rawInput).
Proof. by rewrite getInputs_run. Qed.

(** *** The [catch] block *)

(** What the observer answers to the report of a request-level failure. *)
Definition top_report e c : thrown + unit :=
  match onError opts with
  | None => inr tt
  | Some hook =>
      hook (getErrorFromUnknown e) None VUndefined c (type opts) (req opts)
  end.

(** What the [catch] block returns or throws: the error is shaped, then
    reported, then the response is built. *)
Definition catch_outcome c ps e : thrown + HTTPResponse :=
  let error := getErrorFromUnknown e in
  match getErrorShape (router opts) error (type opts) None VUndefined c with
  | inl thrown_by_formatter => inl thrown_by_formatter
  | inr shaped =>
      match top_report e c with
      | inl thrown_by_hook => inl thrown_by_hook
      | inr _ => response_for c ps (One (TRPCErrorResponse shaped)) [error]
      end
  end.

Definition catch_trace c ps e : list event :=
  let error := getErrorFromUnknown e in
  EvGetErrorShape error (type opts) None VUndefined c
  :: match getErrorShape (router opts) error (type opts) None VUndefined c with
     | inl _ => []
     | inr shaped =>
         report_trace error None VUndefined c
         ++ match top_report e c with
            | inl _ => []
            | inr _ => meta_trace c ps (One (TRPCErrorResponse shaped)) [error]
            end
     end.

Lemma catch_block_run e s :
  catch_block opts e s
  = (catch_outcome (ctx s) (paths s) e,
     extend s (catch_trace (ctx s) (paths s) e)).
Proof.
  unfold catch_block, catch_outcome, catch_trace, bind. rewrite shape_run.
  destruct (getErrorShape _ _ _ _ _ _) as [e'|shaped]; [done|].
  rewrite report_run. unfold report_outcome, top_report.
  destruct (onError opts) as [hook|] eqn:Hhook.
  - destruct (hook _ _ _ _ _ _) as [e'|[]]; simpl.
    + by rewrite extend_app, app_nil_r.
    + rewrite endResponse_run. simpl. by rewrite !extend_app.
  - rewrite endResponse_run. simpl. by rewrite !extend_app.
Qed.

Lemma procedure_calls_catch c ps e :
  procedure_calls (catch_trace c ps e) = [].
Proof.
  unfold catch_trace. simpl.
  destruct (getErrorShape _ _ _ _ _ _); [done|].
  rewrite procedure_calls_app, procedure_calls_report. simpl.
  destruct (top_report e c); [done|]. apply procedure_calls_meta.
Qed.

(** The [catch] block returns when its collaborators do. *)
Lemma catch_outcome_returns c ps e shaped text :
  getErrorShape (router opts) (getErrorFromUnknown e) (type opts) None
    VUndefined c = inr shaped ->
  top_report e c = inr tt ->
  responseMeta_returns ->
  serialized (router opts) (One (TRPCErrorResponse shaped)) = inr text ->
  exists meta,
    meta_for c ps (One (TRPCErrorResponse shaped)) [getErrorFromUnknown e]
    = inr meta
    /\ catch_outcome c ps e
       = inr (response_of meta (One (TRPCErrorResponse shaped)) text).
Proof.
  intros Hshape Hreport Hmeta Htext. unfold catch_outcome.
  rewrite Hshape, Hreport. unfold response_for, meta_for. rewrite Htext.
  destruct (responseMeta opts) as [hook|] eqn:Hhook.
  - destruct (Hmeta hook Hhook c ps (type opts)
                (as_array (One (TRPCErrorResponse shaped)))
                [getErrorFromUnknown e]) as [answer ->].
    by eexists.
  - by eexists.
Qed.

Lemma top_report_returns e c : onError_returns -> top_report e c = inr tt.
Proof.
  intros Hq. unfold top_report.
  destruct (onError opts) as [hook|] eqn:Hhook; [|done]. by apply Hq.
Qed.

(** *** The [try] block from the calls on *)

(** [isBatchCall ? resultEnvelopes : resultEnvelopes[0]] *)
Definition result_of (envs : list TRPCResponse) : ResponseJSON :=
  if isBatchCall opts then Many envs
  else match envs with
       | first :: _ => One first
       | [] => NoJSON
       end.

Definition dispatch_calls (inputs : Inputs) : M HTTPResponse :=
  let* rawResults :=
    Promise_all (imap (call_task opts inputs) request_paths) in
  let errors := errors_of rawResults in
  let* resultEnvelopes := mapM (envelope opts) rawResults in
  let result :=
    if isBatchCall opts then Many resultEnvelopes
    else match resultEnvelopes with
         | first :: _ => One first
         | [] => NoJSON
         end in
  endResponse opts result errors.

(** What the calls and the building of the response return or throw inside
    the [try] block. *)
Definition dispatch_outcome c ps (inputs : Inputs) : thrown + HTTPResponse :=
  match first_rejection 0 (settled c inputs) with
  | Some (_, e) => inl e
  | None =>
      let rawResults := fulfilled (settled c inputs) in
      match fst (envelopes_of c rawResults) with
      | inl e => inl e
      | inr envs => response_for c ps (result_of envs) (errors_of rawResults)
      end
  end.

Definition dispatch_trace c ps (inputs : Inputs) : list event :=
  tasks_trace c inputs
  ++ match first_rejection 0 (settled c inputs) with
     | Some _ => []
     | None =>
         let rawResults := fulfilled (settled c inputs) in
         snd (envelopes_of c rawResults)
         ++ match fst (envelopes_of c rawResults) with
            | inl _ => []
            | inr envs =>
                meta_trace c ps (result_of envs) (errors_of rawResults)
            end
     end.

Lemma dispatch_calls_run inputs s :
  dispatch_calls inputs s
  = (dispatch_outcome (ctx s) (paths s) inputs,
     extend s (dispatch_trace (ctx s) (paths s) inputs)).
Proof.
  unfold dispatch_calls, dispatch_outcome, dispatch_trace, result_of.
  unfold bind at 1. rewrite Promise_all_run.
  destruct (first_rejection 0 _) as [[j e]|]; [by rewrite app_nil_r|].
  unfold bind at 1. rewrite mapM_envelope_run. simpl.
  destruct (fst (envelopes_of _ _)) as [e|envs].
  - by rewrite extend_app, app_nil_r.
  - rewrite endResponse_run. simpl. by rewrite !extend_app.
Qed.

Lemma procedure_calls_dispatch c ps inputs :
  procedure_calls (dispatch_trace c ps inputs)
  = imap (fun index path =>
            EvCallProcedure c path (input_at inputs index) (type opts))
      request_paths.
Proof.
  unfold dispatch_trace.
  rewrite procedure_calls_app, procedure_calls_tasks.
  destruct (first_rejection 0 _) as [[j e]|]; [by rewrite app_nil_r|].
  rewrite procedure_calls_app, procedure_calls_envelopes. simpl.
  destruct (fst (envelopes_of _ _)); [by rewrite app_nil_r|].
  by rewrite procedure_calls_meta, app_nil_r.
Qed.

(** *** The handler as a whole *)

Lemma bind_throw_if_false {A} e (k : unit -> M A) s :
  bind (throw_if false e) k s = k tt s.
Proof. reflexivity. Qed.

Lemma bind_lift {A B} (r : thrown + A) (k : A -> M B) s :
  bind (lift r) k s = match r with inl e => (inl e, s) | inr a => k a s end.
Proof. by destruct r. Qed.

Definition after_paths : locals :=
  {| ctx := None; paths := Some request_paths; trace := [EvCreateContext] |}.

Definition after_context (built : Ctx) (rawInput : value) : locals :=
  {| ctx := Some built; paths := Some request_paths;
     trace := EvCreateContext :: snd (decode_inputs rawInput) |}.

Lemma try_block_run :
  try_block opts initial
  = if batching_rejected then (inl batching_disabled_error, initial)
    else if method_rejected then (inl method_not_supported_error, initial)
    else
      match getRawProcedureInputOrThrow (req opts) with
      | inl e => (inl e, initial)
      | inr rawInput =>
          match createContext opts tt with
          | inl e => (inl e, after_paths)
          | inr built =>
              match fst (decode_inputs rawInput) with
              | inl e => (inl e, after_context built rawInput)
              | inr inputs =>
                  dispatch_calls inputs (after_context built rawInput)
              end
          end
      end.
Proof.
  unfold try_block.
  fold batching_rejected method_rejected batching_disabled_error
    method_not_supported_error request_paths.
  destruct batching_rejected; [reflexivity|]. rewrite bind_throw_if_false.
  destruct method_rejected; [reflexivity|]. rewrite bind_throw_if_false.
  rewrite bind_lift.
  destruct (getRawProcedureInputOrThrow (req opts)) as [e|rawInput];
    [reflexivity|].
  unfold bind at 1. unfold set_paths at 1. unfold bind at 1.
  rewrite invoke_run.
  destruct (createContext opts tt) as [e|built]; [reflexivity|].
  unfold bind at 1. unfold set_ctx at 1. unfold bind at 1.
  rewrite getInputs_run. simpl.
  destruct (fst (decode_inputs rawInput)); reflexivity.
Qed.

(** What the handler makes of the outcome of its [try] block: a response is
    returned as it is, a thrown value goes through the [catch] block. *)
Definition caught c ps evs (r : thrown + HTTPResponse)
  : (thrown + HTTPResponse) * list event :=
  match r with
  | inr resp => (inr resp, evs)
  | inl e => (catch_outcome c ps e, evs ++ catch_trace c ps e)
  end.

Lemma handler_caught s (r : thrown + HTTPResponse) :
  (let '(r', s') :=
     match r with
     | inl e => catch_block opts e s
     | inr resp => (inr resp, s)
     end in (r', trace s'))
  = caught (ctx s) (paths s) (trace s) r.
Proof. destruct r as [e|resp]; [|done]. by rewrite catch_block_run. Qed.

Definition head_response : HTTPResponse :=
  {| status := 204; resp_headers := None; resp_body := None |}.

(** The run of the handler, stage by stage. *)
Lemma handler_run :
  requestHandlerInner opts
  = if is_head then (inr head_response, [])
    else if batching_rejected then
      caught None None [] (inl batching_disabled_error)
    else if method_rejected then
      caught None None [] (inl method_not_supported_error)
    else
      match getRawProcedureInputOrThrow (req opts) with
      | inl e => caught None None [] (inl e)
      | inr rawInput =>
          match createContext opts tt with
          | inl e => caught None (Some request_paths) [EvCreateContext] (inl e)
          | inr built =>
              match fst (decode_inputs rawInput) with
              | inl e =>
                  caught (Some built) (Some request_paths)
                    (EvCreateContext :: snd (decode_inputs rawInput)) (inl e)
              | inr inputs =>
                  caught (Some built) (Some request_paths)
                    (EvCreateContext :: snd (decode_inputs rawInput)
                     ++ dispatch_trace (Some built) (Some request_paths) inputs)
                    (dispatch_outcome (Some built) (Some request_paths) inputs)
              end
          end
      end.
Proof.
  unfold requestHandlerInner, requestHandlerInner_body. fold is_head.
  destruct is_head; [done|].
  unfold try_catch. rewrite try_block_run.
  destruct batching_rejected.
  { apply (handler_caught initial (inl _)). }
  destruct method_rejected.
  { apply (handler_caught initial (inl _)). }
  destruct (getRawProcedureInputOrThrow (req opts)) as [e|rawInput].
  { apply (handler_caught initial (inl _)). }
  destruct (createContext opts tt) as [e|built].
  { apply (handler_caught after_paths (inl _)). }
  destruct (fst (decode_inputs rawInput)) as [e|inputs].
  { apply (handler_caught (after_context built rawInput) (inl _)). }
  rewrite dispatch_calls_run.
  apply (handler_caught
           (extend (after_context built rawInput)
              (dispatch_trace (Some built) (Some request_paths) inputs))).
Qed.

Lemma handler_head :
  is_head = true -> requestHandlerInner opts = (inr head_response, []).
Proof. intros Hhead. by rewrite handler_run, Hhead. Qed.

Lemma gate_failure_not_head e c : gate_failure e c -> is_head = false.
Proof. by intros []. Qed.

(** [paths] when the [try] block is left by a request-level failure: it is
    assigned once the raw input has been read, before the context is
    built. *)
Definition paths_at_failure : option (list string) :=
  if batching_rejected || method_rejected then None
  else
    match getRawProcedureInputOrThrow (req opts) with
    | inl _ => None
    | inr _ => Some request_paths
    end.

(** The invocations of the context factory, of the input transformer and of
    procedures. *)
Definition is_front (ev : event) : bool :=
  match ev with
  | EvCreateContext | EvDeserialize _ | EvCallProcedure _ _ _ _ => true
  | _ => false
  end.

(** The context, transformer and procedure invocations of a request, in
    order. *)
Definition front_of : list event :=
  if is_head then []
  else if batching_rejected then []
  else if method_rejected then []
  else
    match getRawProcedureInputOrThrow (req opts) with
    | inl _ => []
    | inr rawInput =>
        EvCreateContext
        :: match createContext opts tt with
           | inl _ => []
           | inr built =>
               snd (decode_inputs rawInput)
               ++ match fst (decode_inputs rawInput) with
                  | inl _ => []
                  | inr inputs =>
                      imap (fun index path =>
                              EvCallProcedure (Some built) path
                                (input_at inputs index) (type opts))
                        request_paths
                  end
           end
    end.

(** A request that fails at a gate is answered by the [catch] block
    alone. *)
Lemma gate_failure_run e c :
  gate_failure e c ->
  requestHandlerInner opts
  = (catch_outcome c paths_at_failure e,
     front_of ++ catch_trace c paths_at_failure e).
Proof.
  intros Hgate. rewrite handler_run. unfold front_of, paths_at_failure.
  destruct Hgate as [-> Hb | -> Hb Hm | e' -> Hb Hm Hraw
                    | rawInput e' -> Hb Hm Hraw Hctx
                    | rawInput built e' -> Hb Hm Hraw Hctx Hin];
    rewrite Hb; try rewrite Hm; try rewrite Hraw; try rewrite Hctx;
    try reflexivity.
  rewrite getInputs_outcome in Hin. rewrite Hin. simpl.
  by rewrite app_nil_r.
Qed.

(** A request that passes the gates is answered from its calls, through the
    [catch] block if something throws on the way. *)
Lemma dispatches_run rawInput built inputs :
  dispatches rawInput built inputs ->
  requestHandlerInner opts
  = caught (Some built) (Some request_paths)
      (EvCreateContext :: snd (decode_inputs rawInput)
       ++ dispatch_trace (Some built) (Some request_paths) inputs)
      (dispatch_outcome (Some built) (Some request_paths) inputs).
Proof.
  intros (Hhead & Hb & Hm & Hraw & Hctx & Hin).
  rewrite getInputs_outcome in Hin.
  by rewrite handler_run, Hhead, Hb, Hm, Hraw, Hctx, Hin.
Qed.

Lemma procedure_calls_caught c ps evs r :
  procedure_calls (snd (caught c ps evs r)) = procedure_calls evs.
Proof.
  destruct r as [e|resp]; simpl; [|done].
  by rewrite procedure_calls_app, procedure_calls_catch, app_nil_r.
Qed.


Lemma dispatches_calls rawInput built inputs :
  dispatches rawInput built inputs ->
  procedure_calls (snd (requestHandlerInner opts))
  = imap (fun index path =>
            EvCallProcedure (Some built) path (input_at inputs index)
              (type opts))
      request_paths.
Proof.
  intros Hd. rewrite (dispatches_run _ _ _ Hd), procedure_calls_caught.
  change (procedure_calls
            (snd (decode_inputs rawInput)
             ++ dispatch_trace (Some built) (Some request_paths) inputs)
          = imap (fun index path =>
                    EvCallProcedure (Some built) path (input_at inputs index)
                      (type opts)) request_paths).
  by rewrite procedure_calls_app, procedure_calls_decode_inputs,
    procedure_calls_dispatch.
Qed.

(** *** What a returned response is made of *)

Lemma response_for_inv c ps json errors resp :
  response_for c ps json errors = inr resp ->
  exists meta text,
    meta_for c ps json errors = inr meta
    /\ serialized (router opts) json = inr text
    /\ resp = response_of meta json text.
Proof.
  unfold response_for.
  destruct (meta_for c ps json errors) as [e|meta]; [done|].
  destruct (serialized (router opts) json) as [e|text]; [done|].
  intros [= <-]. by eexists _, _.
Qed.

Lemma catch_outcome_inv c ps e resp :
  catch_outcome c ps e = inr resp ->
  exists shaped,
    getErrorShape (router opts) (getErrorFromUnknown e) (type opts) None
      VUndefined c = inr shaped
    /\ top_report e c = inr tt
    /\ response_for c ps (One (TRPCErrorResponse shaped))
         [getErrorFromUnknown e] = inr resp
    /\ catch_trace c ps e
       = EvGetErrorShape (getErrorFromUnknown e) (type opts) None VUndefined c
         :: report_trace (getErrorFromUnknown e) None VUndefined c
         ++ meta_trace c ps (One (TRPCErrorResponse shaped))
              [getErrorFromUnknown e].
Proof.
  unfold catch_outcome, catch_trace.
  destruct (getErrorShape _ _ _ _ _ _) as [e'|shaped]; [done|].
  destruct (top_report e c) as [e'|[]]; [done|].
  intros Hresp. by exists shaped.
Qed.

Lemma dispatch_outcome_inv c ps inputs resp :
  dispatch_outcome c ps inputs = inr resp ->
  let rawResults := imap (task_result c inputs) request_paths in
  exists envs,
    Forall2 (envelope_for c) rawResults envs
    /\ response_for c ps (result_of envs) (errors_of rawResults) = inr resp
    /\ dispatch_trace c ps inputs
       = tasks_trace c inputs
         ++ flat_map (envelope_trace c) rawResults
         ++ meta_trace c ps (result_of envs) (errors_of rawResults).
Proof.
  unfold dispatch_outcome, dispatch_trace.
  destruct (first_rejection 0 (settled c inputs)) as [[j e]|] eqn:Hrej;
    [done|].
  rewrite (settled_fulfilled _ _ Hrej). cbv zeta.
  destruct (fst (envelopes_of c _)) as [e|envs] eqn:Henvs; [done|].
  destruct (envelopes_of_inv _ _ _ Henvs) as [Hall ->].
  intros Hresp. by exists envs.
Qed.


(** A returned response was built by [endResponse], last of all, either
    from the top-level envelope of an error or from one envelope per path. *)
Lemma handler_response resp log :
  requestHandlerInner opts = (inr resp, log) ->
  is_head = false ->
  exists c ps json errors meta text pre,
    meta_for c ps json errors = inr meta
    /\ serialized (router opts) json = inr text
    /\ resp = response_of meta json text
    /\ log = pre ++ meta_trace c ps json errors
    /\ ((exists e shaped,
           getErrorShape (router opts) (getErrorFromUnknown e) (type opts)
             None VUndefined c = inr shaped
           /\ json = One (TRPCErrorResponse shaped))
        \/ exists envs,
             length envs = length request_paths /\ json = result_of envs).
Proof.
  intros Hrun Hhead.
  assert (Hcatch : forall c ps evs e,
            caught c ps evs (inl e) = (inr resp, log) ->
            exists c ps json errors meta text pre,
              meta_for c ps json errors = inr meta
              /\ serialized (router opts) json = inr text
              /\ resp = response_of meta json text
              /\ log = pre ++ meta_trace c ps json errors
              /\ ((exists e shaped,
                     getErrorShape (router opts) (getErrorFromUnknown e)
                       (type opts) None VUndefined c = inr shaped
                     /\ json = One (TRPCErrorResponse shaped))
                  \/ exists envs,
                       length envs = length request_paths
                       /\ json = result_of envs)).
  { intros c ps evs e. simpl. intros [= Hout <-].
    destruct (catch_outcome_inv _ _ _ _ Hout)
      as (shaped & Hshape & _ & Hresp & ->).
    destruct (response_for_inv _ _ _ _ _ Hresp) as (meta & text & Hm & Ht & ->).
    exists c, ps, (One (TRPCErrorResponse shaped)), [getErrorFromUnknown e],
      meta, text.
    eexists. split; [done|]. split; [done|]. split; [done|]. split.
    - rewrite app_comm_cons, app_assoc. reflexivity.
    - left. by exists e, shaped. }
  rewrite handler_run, Hhead in Hrun.
  destruct batching_rejected; [by apply (Hcatch _ _ _ _ Hrun)|].
  destruct method_rejected; [by apply (Hcatch _ _ _ _ Hrun)|].
  destruct (getRawProcedureInputOrThrow (req opts)) as [e|rawInput];
    [by apply (Hcatch _ _ _ _ Hrun)|].
  destruct (createContext opts tt) as [e|built];
    [by apply (Hcatch _ _ _ _ Hrun)|].
  destruct (fst (decode_inputs rawInput)) as [e|inputs];
    [by apply (Hcatch _ _ _ _ Hrun)|].
  destruct (dispatch_outcome (Some built) (Some request_paths) inputs)
    as [e|resp'] eqn:Hout; [by apply (Hcatch _ _ _ _ Hrun)|].
  simpl in Hrun. injection Hrun as -> <-.
  destruct (dispatch_outcome_inv _ _ _ _ Hout) as (envs & Hall & Hresp & ->).
  destruct (response_for_inv _ _ _ _ _ Hresp) as (meta & text & Hm & Ht & ->).
  exists (Some built), (Some request_paths), (result_of envs),
    (errors_of (imap (task_result (Some built) inputs) request_paths)),
    meta, text.
  eexists. split; [done|]. split; [done|]. split; [done|]. split.
  - rewrite app_comm_cons, !app_assoc. reflexivity.
  - right. exists envs. split; [|done].
    apply Forall2_length in Hall. by rewrite <- Hall, length_imap.
Qed.

(** *** Counting invocations *)

Lemma length_split_go sep text cur :
  length (split_go sep text cur) = S (count_char sep text).
Proof.
  revert cur. induction text as [|a rest IH]; intros cur; simpl; [done|].
  destruct (Ascii.eqb a sep); simpl; by rewrite IH.
Qed.

Lemma length_split sep text :
  length (split sep text) = S (count_char sep text).
Proof. apply length_split_go. Qed.











End Runs.

(** ** Properties of the handler *)

Section Properties.

Implicit Types (opts : HTTPHandlerInnerOptions) (c : Ctx) (e : thrown).

(** C9.  A [HEAD] request is answered by status 204 with no body and no
    headers, and no collaborator is invoked: neither the context factory, nor
    a procedure, nor any other stage. *)
Theorem head_short_circuit opts :
  method (req opts) = "HEAD" ->
  requestHandlerInner opts
  = (inr {| status := 204; resp_headers := None; resp_body := None |}, []).
Proof.
  intros Hm. unfold requestHandlerInner, requestHandlerInner_body.
  by rewrite Hm.
Qed.

Lemma query_get_has q name raw :
  query_get q name = Some raw -> query_has q name = true.
Proof.
  induction q as [|[k v] q IH]; simpl; [done|].
  destruct (String.eqb k name); [done|]. apply IH.
Qed.

(** C7.  Raw input extraction: a [GET] without an [input] parameter gives
    the absent value; a [GET] with one parses its string as JSON; any other
    method parses a string body as JSON and passes a structured body through
    unchanged; a failure of the JSON parser is thrown as a [PARSE_ERROR] that
    keeps the original error, and nothing else is ever thrown. *)
Theorem raw_input_extraction (r : HTTPRequest) :
  (method r = "GET" -> query_has (query r) "input" = false ->
   getRawProcedureInputOrThrow r = inr VUndefined)
  /\ (forall raw v,
        method r = "GET" -> query_get (query r) "input" = Some raw ->
        JSON_parse raw = inr v -> getRawProcedureInputOrThrow r = inr v)
  /\ (forall text v,
        method r <> "GET" -> body r = VStr text -> JSON_parse text = inr v ->
        getRawProcedureInputOrThrow r = inr v)
  /\ (method r <> "GET" -> (forall text, body r <> VStr text) ->
      getRawProcedureInputOrThrow r = inr (body r))
  /\ (forall raw original,
        method r = "GET" -> query_get (query r) "input" = Some raw ->
        JSON_parse raw = inl original ->
        getRawProcedureInputOrThrow r
        = inl (JsTRPCError (mkTRPCError "PARSE_ERROR" None (Some original))))
  /\ (forall text original,
        method r <> "GET" -> body r = VStr text ->
        JSON_parse text = inl original ->
        getRawProcedureInputOrThrow r
        = inl (JsTRPCError (mkTRPCError "PARSE_ERROR" None (Some original))))
  /\ (forall e,
        getRawProcedureInputOrThrow r = inl e ->
        exists original,
          e = JsTRPCError (mkTRPCError "PARSE_ERROR" None (Some original))).
Proof.
  unfold getRawProcedureInputOrThrow. repeat split.
  - by intros -> ->.
  - intros raw v -> Hget Hparse.
    rewrite (query_get_has _ _ _ Hget), Hget. simpl. by rewrite Hparse.
  - intros text v Hm -> Hparse.
    apply String.eqb_neq in Hm. by rewrite Hm, Hparse.
  - intros Hm Hbody. apply String.eqb_neq in Hm. rewrite Hm.
    destruct (body r); try done. by destruct (Hbody s).
  - intros raw original -> Hget Hparse.
    rewrite (query_get_has _ _ _ Hget), Hget. simpl. by rewrite Hparse.
  - intros text original Hm -> Hparse.
    apply String.eqb_neq in Hm. by rewrite Hm, Hparse.
  - intros e He.
    repeat match type of He with
           | context [match ?x with _ => _ end] => destruct x; simplify_eq
           end; eauto.
Qed.

Lemma existsb_eqb_In m (l : list string) :
  existsb (String.eqb m) l = true <-> In m l.
Proof.
  rewrite existsb_exists. split.
  - intros (x & Hx & Heq). apply String.eqb_eq in Heq. by subst.
  - intros Hin. exists m. split; [done|]. apply String.eqb_refl.
Qed.











Lemma decode_inl opts rawValue e :
  decode opts rawValue = inl e ->
  rawValue <> VUndefined /\ deserialize (router opts) rawValue = inl e.
Proof. by destruct rawValue. Qed.

(** C3, as the code has it.  The raw input of a batch call must be a
    non-null, non-array object: anything else is refused with the
    [BAD_REQUEST] error.  The keys of an object are not validated: whatever
    its spelling, each key has its value deserialized on its own (an
    undefined value is kept as it is), so the decoding fails only when the
    transformer throws.  Each decoded value is stored under the very key it
    came from, except that of the key [__proto__], which is stored under no
    key: it becomes the prototype of the inputs when it is an object, an
    array or [null], and is dropped otherwise. *)
Theorem batch_inputs_by_key opts rawInput (s : locals) :
  isBatchCall opts = true ->
  (not_an_object rawInput = true ->
   getInputs opts rawInput s = (inl bad_batch_input, s))
  /\ (not_an_object rawInput = false ->
      (forall e,
         fst (getInputs opts rawInput s) = inl e ->
         exists k,
           In k (for_in_keys rawInput)
           /\ get_prop rawInput k <> VUndefined
           /\ deserialize (router opts) (get_prop rawInput k) = inl e)
      /\ ((forall k, In k (for_in_keys rawInput) ->
             exists v, decode opts (get_prop rawInput k) = inr v) ->
          exists inputs,
            getInputs opts rawInput s
            = (inr inputs,
               extend s
                 (flat_map (fun k => decode_trace (get_prop rawInput k))
                    (for_in_keys rawInput)))
            /\ (forall k, In k (for_in_keys rawInput) -> k <> "__proto__" ->
                  exists v, decode opts (get_prop rawInput k) = inr v
                            /\ own inputs !! k = Some v)
            /\ (forall k, ~ In k (for_in_keys rawInput) \/ k = "__proto__" ->
                  own inputs !! k = None)
            /\ (forall v,
                  decode opts (get_prop rawInput "__proto__") = inr v ->
                  proto inputs = if can_be_prototype v then Some v else None))).
Proof.
  intros Hbatch. rewrite getInputs_run. unfold decode_inputs.
  rewrite Hbatch. simpl. split.
  - intros ->. simpl. by rewrite extend_nil.
  - intros ->. split.
    + intros e Hthrow.
      destruct (decode_keys_throws opts _ _ _ _ Hthrow) as (k & Hk & Hdec).
      exists k. split; [done|]. by apply decode_inl.
    + intros Hall.
      destruct (decode_keys_returns opts rawInput (for_in_keys rawInput)
                  empty_inputs Hall) as [inputs Hrun].
      destruct (decode_keys_inv opts _ _ _ _ Hrun)
        as (Htrace & Hin & Hout & Hproto).
      exists inputs. split.
      { rewrite <- Htrace, <- Hrun.
        by destruct (decode_keys opts rawInput (for_in_keys rawInput)
                       empty_inputs). }
      split.
      { intros k Hk Hne. destruct (Hin k Hk) as (v & Hv & Hown).
        exists v. split; [done|]. by apply Hown. }
      split.
      { intros k Hk. by rewrite (Hout k Hk). }
      intros v Hv. rewrite Hproto. unfold proto_after. simpl.
      destruct (in_dec string_dec "__proto__" (for_in_keys rawInput))
        as [Hp|Hp].
      * by rewrite Hv.
      * unfold get_prop in Hv. rewrite assoc_get_missing in Hv by done.
        injection Hv as <-. done.
Qed.

(** The options with the failure observer removed. *)
Definition without_onError opts : HTTPHandlerInnerOptions :=
  {| createContext := createContext opts;
     onError := None;
     responseMeta := responseMeta opts;
     batching := batching opts;
     router := router opts;
     req := req opts;
     path := path opts |}.

Lemma caught_quiet opts (built : option Ctx) ps evs evs' r :
  onError_returns opts ->
  fst (caught opts built ps evs r)
  = fst (caught (without_onError opts) built ps evs' r).
Proof.
  intros Hq. destruct r as [e|resp]; [|done]. simpl.
  unfold catch_outcome.
  rewrite (top_report_returns opts e built Hq).
  by rewrite (top_report_returns (without_onError opts) e built)
    by (by intros hook).
Qed.

Lemma dispatch_outcome_quiet opts (built : option Ctx) ps inputs :
  onError_returns opts ->
  dispatch_outcome opts built ps inputs
  = dispatch_outcome (without_onError opts) built ps inputs.
Proof.
  intros Hq.
  assert (Hq' : onError_returns (without_onError opts)) by (by intros hook).
  unfold dispatch_outcome.
  rewrite (settled_returns opts built inputs Hq).
  rewrite (settled_returns (without_onError opts) built inputs Hq').
  rewrite (settled_fulfilled opts _ _ (settled_returns opts built inputs Hq)).
  by rewrite (settled_fulfilled (without_onError opts) _ _
                (settled_returns (without_onError opts) built inputs Hq')).
Qed.

(** An observer that returns normally leaves what the handler returns or
    throws as it is without the observer. *)
Lemma onError_return_ignored opts :
  onError_returns opts ->
  fst (requestHandlerInner opts)
  = fst (requestHandlerInner (without_onError opts)).
Proof.
  intros Hq. rewrite !handler_run.
  change (is_head (without_onError opts)) with (is_head opts).
  change (batching_rejected (without_onError opts))
    with (batching_rejected opts).
  change (method_rejected (without_onError opts)) with (method_rejected opts).
  change (req (without_onError opts)) with (req opts).
  change (createContext (without_onError opts)) with (createContext opts).
  change (request_paths (without_onError opts)) with (request_paths opts).
  destruct (is_head opts); [done|].
  destruct (batching_rejected opts); [by apply caught_quiet|].
  destruct (method_rejected opts); [by apply caught_quiet|].
  destruct (getRawProcedureInputOrThrow (req opts)) as [e|rawInput];
    [by apply caught_quiet|].
  destruct (createContext opts tt) as [e|c]; [by apply caught_quiet|].
  change (decode_inputs (without_onError opts) rawInput)
    with (decode_inputs opts rawInput).
  destruct (fst (decode_inputs opts rawInput)) as [e|inputs];
    [by apply caught_quiet|].
  rewrite <- dispatch_outcome_quiet by done. by apply caught_quiet.
Qed.

(** C4, as the code has it.  When the call of a procedure fails, the
    observer, if there is one, is invoked with the normalized error, the
    path and the input of the call, after the procedure and before the task
    returns its outcome; once the observer has returned, the outcome is the
    normalized error, whatever the observer did, as it is when there is no
    observer; and an observer that returns normally leaves the result of the
    handler as it is without it. *)
Theorem failure_reported_then_folded opts :
  (forall inputs index path (s : locals) err hook,
     callProcedure (ctx s) (router opts) path (input_at inputs index)
       (type opts) = inl err ->
     onError opts = Some hook ->
     snd (call_task opts inputs index path s)
     = extend s
         [EvCallProcedure (ctx s) path (input_at inputs index) (type opts);
          EvOnError (getErrorFromUnknown err) (Some path)
            (input_at inputs index) (ctx s) (type opts)]
     /\ (hook (getErrorFromUnknown err) (Some path) (input_at inputs index)
           (ctx s) (type opts) (req opts) = inr tt ->
         fst (call_task opts inputs index path s)
         = inr (ResultError (input_at inputs index) path
                  (getErrorFromUnknown err))))
  /\ (forall inputs index path (s : locals) err,
        callProcedure (ctx s) (router opts) path (input_at inputs index)
          (type opts) = inl err ->
        onError opts = None ->
        call_task opts inputs index path s
        = (inr (ResultError (input_at inputs index) path
                  (getErrorFromUnknown err)),
           extend s
             [EvCallProcedure (ctx s) path (input_at inputs index)
                (type opts)]))
  /\ (onError_returns opts ->
      fst (requestHandlerInner opts)
      = fst (requestHandlerInner (without_onError opts))).
Proof.
  split; [|split; [|apply onError_return_ignored]].
  - intros inputs index path s err hook Hcall Hhook.
    rewrite call_task_run. unfold task_outcome, task_trace, report_trace.
    rewrite Hcall, Hhook. simpl. split; [done|]. by intros ->.
  - intros inputs index path s err Hcall Hhook.
    rewrite call_task_run. unfold task_outcome, task_trace, report_trace.
    by rewrite Hcall, Hhook.
Qed.


End Properties.

End Handler.

(** ** A sample router and its requests *)

(** The context is a string, the error shape is a string naming the code of
    the error and the path it was shaped for. *)

Definition sample_render (v : value) : string :=
  match v with
  | VUndefined => "undefined"
  | VNull => "null"
  | VBool true => "true"
  | VBool false => "false"
  | VNum _ => "number"
  | VStr text => text
  | VArr _ => "array"
  | VObj _ => "object"
  end.

Definition sample_envelope (r : @TRPCResponse string) : string :=
  match r with
  | TRPCErrorResponse shaped => String.append "error:" shaped
  | TRPCResultResponse data => String.append "data:" (sample_render data)
  end.

Definition sample_is_error (r : @TRPCResponse string) : bool :=
  match r with
  | TRPCErrorResponse _ => true
  | TRPCResultResponse _ => false
  end.

#[local] Instance sample_externals : @Externals string string := {|
  callProcedure := fun _ _ path input _ =>
    if String.eqb path "fail" then inl (JsError "boom") else inr input;
  getErrorFromUnknown := fun cause =>
    match cause with
    | JsTRPCError e => e
    | JsError text =>
        mkTRPCError "INTERNAL_SERVER_ERROR" (Some text) (Some cause)
    | JsThrown _ => mkTRPCError "INTERNAL_SERVER_ERROR" None (Some cause)
    end;
  transformTRPCResponse := fun _ json => inr json;
  getHTTPStatusCode := fun json =>
    match json with
    | One r => if sample_is_error r then 500%float else 200%float
    | Many rs => if existsb sample_is_error rs then 500%float else 200%float
    | NoJSON => 200%float
    end;
  JSON_parse := fun text =>
    if String.eqb text "null" then inr VNull
    else if String.eqb text "1" then inr (VNum 1)
    else inl (JsThrown (VStr "SyntaxError"));
  JSON_stringify := fun json =>
    match json with
    | One r => inr (sample_envelope r)
    | Many rs =>
        inr (String.append "["
               (String.append (String.concat "," (map sample_envelope rs)) "]"))
    | NoJSON => inr "undefined"
    end;
  settle_time := fun index => index;
|}.

Definition sample_router : @Router string string :=
  {| deserialize := fun v =>
       match v with
       | VBool false => inl (JsError "cannot deserialize")
       | _ => inr v
       end;
     getErrorShape := fun error _ path _ _ =>
       inr (String.append (code error)
              (String.append "@" (default "undefined" path))) |}.

Definition sample_opts (m : string) (q : list (string * string)) (b : value)
    (p : string) : @HTTPHandlerInnerOptions string string :=
  {| createContext := fun _ => inr "ctx";
     onError := None;
     responseMeta := None;
     batching := None;
     router := sample_router;
     req := {| method := m; headers := []; query := q; body := b |};
     path := p |}.

Definition with_onError
    (hook : TRPCError -> option string -> value -> option string ->
            ProcedureType -> HTTPRequest -> thrown + unit)
    (opts : @HTTPHandlerInnerOptions string string)
  : @HTTPHandlerInnerOptions string string :=
  {| createContext := createContext opts;
     onError := Some hook;
     responseMeta := responseMeta opts;
     batching := batching opts;
     router := router opts;
     req := req opts;
     path := path opts |}.

Definition with_responseMeta (answer : ResponseMeta)
    (opts : @HTTPHandlerInnerOptions string string)
  : @HTTPHandlerInnerOptions string string :=
  {| createContext := createContext opts;
     onError := onError opts;
     responseMeta := Some (fun _ _ _ _ _ => inr (Some answer));
     batching := batching opts;
     router := router opts;
     req := req opts;
     path := path opts |}.

Definition with_batching (enabled : bool)
    (opts : @HTTPHandlerInnerOptions string string)
  : @HTTPHandlerInnerOptions string string :=
  {| createContext := createContext opts;
     onError := onError opts;
     responseMeta := responseMeta opts;
     batching := Some enabled;
     router := router opts;
     req := req opts;
     path := path opts |}.

(** An observer that only watches. *)
Definition quiet_hook (error : TRPCError) (path : option string)
    (input : value) (ctx : option string) (type : ProcedureType)
    (r : HTTPRequest) : thrown + unit := inr tt.

(** An observer that throws when it is told of the failure of a call. *)
Definition throwing_hook (error : TRPCError) (path : option string)
    (input : value) (ctx : option string) (type : ProcedureType)
    (r : HTTPRequest) : thrown + unit :=
  match path with
  | Some _ => inl (JsError "observer failed")
  | None => inr tt
  end.

(** An observer that throws whenever it is invoked. *)
Definition failing_hook (error : TRPCError) (path : option string)
    (input : value) (ctx : option string) (type : ProcedureType)
    (r : HTTPRequest) : thrown + unit :=
  inl (JsError "observer failed").

(** A batch of three calls, the second of which fails; the input has no key
    for position 1. *)
Definition sample_batch : @HTTPHandlerInnerOptions string string :=
  with_onError quiet_hook
    (sample_opts "POST" [("batch", "1")]
       (VObj [("0", VNum 1); ("2", VNum 3)]) "a,fail,c").


Lemma sample_quiet_hook opts : onError_returns (with_onError quiet_hook opts).
Proof. intros hook Hhook. injection Hhook as <-. reflexivity. Defined.

Lemma unset_responseMeta_returns
    (opts : @HTTPHandlerInnerOptions string string) :
  responseMeta opts = None -> responseMeta_returns opts.
Proof. intros Hnone hook Hhook. congruence. Defined.


(** The sample error formatter returns. *)
Lemma sample_shapes : getErrorShape_returns sample_router.
Proof. intros error kind p input built. by eexists. Defined.

(** The sample serialization returns. *)
Lemma sample_serializes : serialization_returns sample_router.
Proof.
  intros json. unfold serialized. simpl. destruct json; by eexists.
Defined.

(** The whole run of the batch: the context is built once, the two values
    present are deserialized, the three calls are made, the failure of the
    second is reported and shaped, and the three envelopes are answered in
    path order. *)
Example sample_batch_run :
  requestHandlerInner sample_batch
  = (inr {| status := 500;
            resp_headers :=
              Some {[ "Content-Type" := HString "application/json" ]};
            resp_body :=
              Some "[data:number,error:INTERNAL_SERVER_ERROR@fail,data:number]"
         |},
     [EvCreateContext;
      EvDeserialize (VNum 1);
      EvDeserialize (VNum 3);
      EvCallProcedure (Some "ctx") "a" (VNum 1) Mutation;
      EvCallProcedure (Some "ctx") "fail" VUndefined Mutation;
      EvOnError
        (mkTRPCError "INTERNAL_SERVER_ERROR" (Some "boom")
           (Some (JsError "boom")))
        (Some "fail") VUndefined (Some "ctx") Mutation;
      EvCallProcedure (Some "ctx") "c" (VNum 3) Mutation;
      EvGetErrorShape
        (mkTRPCError "INTERNAL_SERVER_ERROR" (Some "boom")
           (Some (JsError "boom")))
        Mutation (Some "fail") VUndefined (Some "ctx")]).
Proof. vm_compute. reflexivity. Qed.

(** A [GET] whose [input] parameter is not JSON: one top-level
    [PARSE_ERROR] envelope, before the context is built. *)
Example sample_parse_error_run :
  requestHandlerInner (sample_opts "GET" [("input", "not-json")] VUndefined "a")
  = (inr {| status := 500;
            resp_headers :=
              Some {[ "Content-Type" := HString "application/json" ]};
            resp_body := Some "error:PARSE_ERROR@undefined" |},
     [EvGetErrorShape
        (mkTRPCError "PARSE_ERROR" None (Some (JsThrown (VStr "SyntaxError"))))
        Query None VUndefined None]).
Proof. vm_compute. reflexivity. Qed.

(** [split] is JavaScript's: empty pieces are kept. *)
Example sample_split : split comma "a,,b," = ["a"; ""; "b"; ""].
Proof. reflexivity. Qed.

(** The numbers a condition takes for false. *)
Example sample_falsy_numbers :
  truthy_number 0 = false /\ truthy_number (-0) = false
  /\ truthy_number nan = false /\ truthy_number 418 = true.
Proof. repeat split; vm_compute; reflexivity. Qed.

(** ** The properties at the sample requests *)

Lemma head_short_circuit_witness :
  requestHandlerInner (sample_opts "HEAD" [] VUndefined "a")
  = (inr {| status := 204; resp_headers := None; resp_body := None |}, []).
Proof.
  apply (head_short_circuit (sample_opts "HEAD" [] VUndefined "a")).
  reflexivity.
Defined.

Lemma raw_input_extraction_witness :
  getRawProcedureInputOrThrow
    {| method := "GET"; headers := []; query := [("input", "1")];
       body := VUndefined |}
  = inr (VNum 1)
  /\ getRawProcedureInputOrThrow
       {| method := "POST"; headers := []; query := [];
          body := VStr "not-json" |}
     = inl (JsTRPCError
              (mkTRPCError "PARSE_ERROR" None
                 (Some (JsThrown (VStr "SyntaxError"))))).
Proof.
  split.
  - apply (proj1 (proj2
                    (raw_input_extraction
                       {| method := "GET"; headers := [];
                          query := [("input", "1")]; body := VUndefined |}))
             "1" (VNum 1)); reflexivity.
  - apply (proj1 (proj2 (proj2 (proj2 (proj2 (proj2
                    (raw_input_extraction
                       {| method := "POST"; headers := []; query := [];
                          body := VStr "not-json" |}))))))
             "not-json" (JsThrown (VStr "SyntaxError")));
      [discriminate | reflexivity | reflexivity].
Defined.



(** The batching gate comes before the method gate: a batch sent with the
    method [DELETE] to a handler whose batching is switched off fails with
    the error of the batching gate, not with [METHOD_NOT_SUPPORTED]. *)
Example unknown_method_behind_batching_gate :
  type (with_batching false (sample_opts "DELETE" [("batch", "1")] VNull "a"))
  = Unknown
  /\ exists resp,
       requestHandlerInner
         (with_batching false (sample_opts "DELETE" [("batch", "1")] VNull "a"))
       = (inr resp,
          [EvGetErrorShape
             (mkTRPCError "INTERNAL_SERVER_ERROR"
                (Some "Batching is not enabled on the server")
                (Some (JsError "Batching is not enabled on the server")))
             Unknown None VUndefined None])
       /\ resp_body resp = Some "error:INTERNAL_SERVER_ERROR@undefined".
Proof. split; [reflexivity|]. eexists. split; vm_compute; reflexivity. Qed.

(** A batch sent to a handler whose batching is switched off. *)
Definition sample_batching_off : @HTTPHandlerInnerOptions string string :=
  with_batching false (sample_opts "POST" [("batch", "1")] (VObj []) "a,b").




(** A batch whose body is an array. *)
Definition sample_array_batch : @HTTPHandlerInnerOptions string string :=
  sample_opts "POST" [("batch", "1")] (VArr [VNum 1; VNum 2]) "a,b".



(** The inputs of the batch of three calls. *)
Definition sample_batch_inputs : Inputs :=
  {| own := {[ "0" := VNum 1; "2" := VNum 3 ]}; proto := None |}.

Lemma sample_batch_dispatches :
  dispatches sample_batch (VObj [("0", VNum 1); ("2", VNum 3)]) "ctx"
    sample_batch_inputs.
Proof. repeat split; vm_compute; reflexivity. Defined.





(** A batch of one call whose input has no key [0] and holds an object
    under the key [__proto__]. *)
Definition sample_proto_batch : @HTTPHandlerInnerOptions string string :=
  sample_opts "POST" [("batch", "1")]
    (VObj [("__proto__", VObj [("0", VNum 7)])]) "a".


(** A batch whose input names its one value [foo]. *)
Definition sample_named_key : @HTTPHandlerInnerOptions string string :=
  sample_opts "POST" [("batch", "1")] (VObj [("foo", VNum 1)]) "a".

Lemma index_key_not_foo index : index_key index <> "foo".
Proof. unfold index_key. destruct (Nat.to_uint index); discriminate. Qed.

(** C3, the claim fails.  The key [foo] is the decimal spelling of no
    position, and the batch is not refused: the inputs decode, [foo] is kept
    as a key, the call is made with the input [undefined] and the response is
    the array of its result envelope. *)
Lemma batch_key_not_validated :
  (forall index, index_key index <> "foo")
  /\ fst (getInputs sample_named_key (VObj [("foo", VNum 1)]) initial)
     = inr {| own := {[ "foo" := VNum 1 ]}; proto := None |}
  /\ exists resp,
       requestHandlerInner sample_named_key
       = (inr resp,
          [EvCreateContext; EvDeserialize (VNum 1);
           EvCallProcedure (Some "ctx") "a" VUndefined Mutation])
       /\ resp_body resp = Some "[data:undefined]".
Proof.
  split; [exact index_key_not_foo|]. split; [reflexivity|].
  eexists. split; vm_compute; reflexivity.
Qed.

Lemma batch_inputs_by_key_witness :
  exists inputs : Inputs,
    getInputs sample_named_key (VObj [("foo", VNum 1)]) initial
    = (inr inputs, extend initial [EvDeserialize (VNum 1)])
    /\ own inputs !! "foo" = Some (VNum 1)
    /\ own inputs !! "0" = None
    /\ proto inputs = None.
Proof.
  destruct (batch_inputs_by_key sample_named_key (VObj [("foo", VNum 1)])
              initial eq_refl) as [_ Hobject].
  destruct (Hobject eq_refl) as [_ Hdecoded].
  destruct Hdecoded as (inputs & Hrun & Hin & Hout & Hproto).
  - intros k Hk. simpl in Hk. destruct Hk as [<- | []]. eexists. reflexivity.
  - exists inputs. split; [exact Hrun|]. split; [|split].
    + destruct (Hin "foo") as (v & Hv & Hlook).
      * left. reflexivity.
      * discriminate.
      * injection Hv as <-. exact Hlook.
    + apply Hout. left. simpl. intros [Hk | []]. discriminate Hk.
    + exact (Hproto VUndefined eq_refl).
Defined.

(** A batch of two calls, the second of which fails. *)
Definition sample_pair : @HTTPHandlerInnerOptions string string :=
  sample_opts "POST" [("batch", "1")] (VObj []) "a,fail".

(** C4, the claim fails.  In a batch of two calls the second of which
    fails, an observer that throws on the report of that failure turns the
    response into the single top-level envelope of its own error, where the
    same request without an observer gets the array of its two envelopes; an
    observer that always throws leaves the handler with no response at all,
    only the observer's error. *)
Lemma onError_throw_changes_response :
  (exists resp,
     requestHandlerInner (with_onError throwing_hook sample_pair)
     = (inr resp,
        [EvCreateContext;
         EvCallProcedure (Some "ctx") "a" VUndefined Mutation;
         EvCallProcedure (Some "ctx") "fail" VUndefined Mutation;
         EvOnError
           (mkTRPCError "INTERNAL_SERVER_ERROR" (Some "boom")
              (Some (JsError "boom")))
           (Some "fail") VUndefined (Some "ctx") Mutation;
         EvGetErrorShape
           (mkTRPCError "INTERNAL_SERVER_ERROR" (Some "observer failed")
              (Some (JsError "observer failed")))
           Mutation None VUndefined (Some "ctx");
         EvOnError
           (mkTRPCError "INTERNAL_SERVER_ERROR" (Some "observer failed")
              (Some (JsError "observer failed")))
           None VUndefined (Some "ctx") Mutation])
     /\ resp_body resp = Some "error:INTERNAL_SERVER_ERROR@undefined")
  /\ (exists resp log,
        requestHandlerInner sample_pair = (inr resp, log)
        /\ resp_body resp
           = Some "[data:undefined,error:INTERNAL_SERVER_ERROR@fail]")
  /\ fst (requestHandlerInner (with_onError failing_hook sample_pair))
     = inl (JsError "observer failed").
Proof.
  split; [|split].
  - eexists. split; vm_compute; reflexivity.
  - eexists _, _. split; vm_compute; reflexivity.
  - vm_compute. reflexivity.
Qed.

Lemma failure_reported_then_folded_witness :
  snd (call_task sample_batch empty_inputs 1 "fail" initial)
  = extend initial
      [EvCallProcedure None "fail" VUndefined Mutation;
       EvOnError
         (mkTRPCError "INTERNAL_SERVER_ERROR" (Some "boom")
            (Some (JsError "boom")))
         (Some "fail") VUndefined None Mutation]
  /\ fst (call_task sample_batch empty_inputs 1 "fail" initial)
     = inr (ResultError VUndefined "fail"
              (mkTRPCError "INTERNAL_SERVER_ERROR" (Some "boom")
                 (Some (JsError "boom"))))
  /\ fst (requestHandlerInner sample_batch)
     = fst (requestHandlerInner (without_onError sample_batch)).
Proof.
  destruct (failure_reported_then_folded sample_batch) as (Htask & _ & Hsame).
  destruct (Htask empty_inputs 1%nat "fail" initial (JsError "boom")
              quiet_hook eq_refl eq_refl) as [Htrace Hfold].
  split; [exact Htrace|]. split; [exact (Hfold eq_refl)|].
  apply Hsame. apply sample_quiet_hook.
Defined.



(** A call answered under a [responseMeta] that returns the status 0: the
    status derived from the envelope stays. *)
Definition sample_status_zero : @HTTPHandlerInnerOptions string string :=
  with_responseMeta {| meta_status := Some 0%float; meta_headers := None |}
    (sample_opts "POST" [] VNull "a").

Example sample_status_zero_run :
  exists resp log,
    requestHandlerInner sample_status_zero = (inr resp, log)
    /\ status resp = 200%float.
Proof. eexists _, _. split; vm_compute; reflexivity. Qed.



(** * More of the handler

    What follows covers the parts of [requestHandlerInner] that the
    properties above leave aside (what happens when a collaborator throws,
    what the hooks are given, which collaborators can be invoked at all), and
    the outer [requestHandler] that writes the result to the server's
    response. *)

Section Coverage.

Context {Ctx Shape : Type} {E : @Externals Ctx Shape}.

Implicit Types (opts : @HTTPHandlerInnerOptions Ctx Shape).
Implicit Types (s : @locals Ctx Shape) (e : thrown) (c : Ctx).

(** ** The three ways of a request *)

(** A request is a [HEAD], or fails at a gate, or passes them all. *)
Lemma request_cases opts :
  is_head opts = true
  \/ (exists e built, gate_failure opts e built)
  \/ (exists rawInput c inputs, dispatches opts rawInput c inputs).
Proof.
  destruct (is_head opts) eqn:Hhead; [by left|]. right.
  destruct (batching_rejected opts) eqn:Hb.
  { left. eexists _, _. by apply batching_gate. }
  destruct (method_rejected opts) eqn:Hm.
  { left. eexists _, _. by apply method_gate. }
  destruct (getRawProcedureInputOrThrow (req opts)) as [e|rawInput] eqn:Hraw.
  { left. eexists _, _. by apply parse_gate. }
  destruct (createContext opts tt) as [e|c] eqn:Hctx.
  { left. eexists _, _. by apply (context_gate opts rawInput). }
  destruct (fst (getInputs opts rawInput initial)) as [e|inputs] eqn:Hin.
  { left. eexists _, _. by apply (inputs_gate opts rawInput c). }
  right. by exists rawInput, c, inputs.
Qed.

(** The handler, as the [catch] block applied to what the [try] block
    leaves. *)
Lemma handler_outcome opts :
  is_head opts = false ->
  requestHandlerInner opts
  = match try_block opts initial with
    | (inr resp, s) => (inr resp, trace s)
    | (inl e, s) =>
        (catch_outcome opts (ctx s) (paths s) e,
         trace s ++ catch_trace opts (ctx s) (paths s) e)
    end.
Proof.
  intros Hhead. unfold requestHandlerInner, requestHandlerInner_body.
  fold (is_head opts). rewrite Hhead. unfold try_catch.
  destruct (try_block opts initial) as [[e|resp] s]; [|done].
  by rewrite catch_block_run.
Qed.




(** The observer returns on the report of a request-level failure. *)
Definition top_report_returns_always opts : Prop :=
  forall hook, onError opts = Some hook ->
    forall error (built : option Ctx),
      hook error None VUndefined built (type opts) (req opts) = inr tt.

Lemma handler_answers opts :
  top_report_returns_always opts ->
  getErrorShape_returns (router opts) ->
  responseMeta_returns opts ->
  serialization_returns (router opts) ->
  exists resp, fst (requestHandlerInner opts) = inr resp.
Proof.
  intros Hq Hshape Hmeta Hser.
  destruct (is_head opts) eqn:Hhead.
  { rewrite handler_head by done. by eexists. }
  rewrite handler_outcome by done.
  destruct (try_block opts initial) as [[e|resp] s]; [|by eexists].
  destruct (Hshape (getErrorFromUnknown e) (type opts) None VUndefined (ctx s))
    as [shaped Hshaped].
  destruct (Hser (One (TRPCErrorResponse shaped))) as [text Htext].
  destruct (catch_outcome_returns opts (ctx s) (paths s) e shaped text)
    as (meta & _ & Hout); try done.
  - unfold top_report. destruct (onError opts) as [hook|] eqn:Hhook; [|done].
    by apply Hq.
  - rewrite Hout. by eexists.
Qed.


(** ** The invocations that do not depend on the hooks *)

Definition is_create (ev : @event Ctx Shape) : bool :=
  match ev with
  | EvCreateContext => true
  | _ => false
  end.

Lemma filter_all {A} (f : A -> bool) (l : list A) :
  (forall x, In x l -> f x = true) -> List.filter f l = l.
Proof.
  induction l as [|x l IH]; intros Hall; simpl; [done|].
  rewrite (Hall x) by (by left). f_equal. apply IH.
  intros y Hy. apply Hall. by right.
Qed.

Lemma filter_none {A} (f : A -> bool) (l : list A) :
  (forall x, In x l -> f x = false) -> List.filter f l = [].
Proof.
  induction l as [|x l IH]; intros Hall; simpl; [done|].
  rewrite (Hall x) by (by left). apply IH.
  intros y Hy. apply Hall. by right.
Qed.

Lemma filter_filter_imp {A} (f g : A -> bool) (l : list A) :
  (forall x, f x = true -> g x = true) ->
  List.filter f (List.filter g l) = List.filter f l.
Proof.
  intros Himp. induction l as [|x l IH]; simpl; [done|].
  destruct (g x) eqn:Hg; simpl.
  - by rewrite IH.
  - destruct (f x) eqn:Hf; [|done]. by rewrite (Himp x Hf) in Hg.
Qed.

Lemma filter_concat_imap (f : @event Ctx Shape -> bool)
    (t : nat -> string -> list event) (ev : nat -> string -> event) l :
  (forall index path, List.filter f (t index path) = [ev index path]) ->
  List.filter f (concat (imap t l)) = imap ev l.
Proof.
  revert t ev. induction l as [|p l IH]; intros t ev Ht; simpl; [done|].
  rewrite List.filter_app, Ht. simpl. f_equal.
  apply IH. intros index path. apply Ht.
Qed.

(** The transformer is invoked on defined values only, taken from the raw
    input: the raw input itself for a single call, its properties for a
    batch. *)
Lemma decode_keys_events opts rawInput keys input ev :
  In ev (snd (decode_keys opts rawInput keys input)) ->
  exists k,
    In k keys
    /\ ev = EvDeserialize (get_prop rawInput k)
    /\ get_prop rawInput k <> VUndefined.
Proof.
  revert input. induction keys as [|k rest IH]; intros input; simpl; [done|].
  assert (Hhere : In ev (decode_trace (get_prop rawInput k)) ->
                  exists k', In k' (k :: rest)
                             /\ ev = EvDeserialize (get_prop rawInput k')
                             /\ get_prop rawInput k' <> VUndefined).
  { intros Hev. exists k. split; [by left|].
    destruct (get_prop rawInput k); simpl in Hev; [done|..];
      destruct Hev as [<-|[]]; done. }
  destruct (decode opts (get_prop rawInput k)) as [e|v]; simpl; [done|].
  specialize (IH (set_input input k v)).
  destruct (decode_keys opts rawInput rest (set_input input k v)) as [r evs].
  simpl in *. intros Hev. apply in_app_or in Hev as [Hev|Hev]; [by apply Hhere|].
  destruct (IH Hev) as (k' & Hk' & Heq & Hdef).
  exists k'. split; [by right|done].
Qed.

Lemma decode_inputs_events opts rawInput ev :
  In ev (snd (decode_inputs opts rawInput)) ->
  exists v,
    ev = EvDeserialize v
    /\ v <> VUndefined
    /\ (isBatchCall opts = false /\ v = rawInput
        \/ isBatchCall opts = true
           /\ exists k, In k (for_in_keys rawInput) /\ v = get_prop rawInput k).
Proof.
  unfold decode_inputs. destruct (isBatchCall opts); simpl.
  - destruct (not_an_object rawInput); [done|]. intros Hev.
    destruct (decode_keys_events _ _ _ _ _ Hev) as (k & Hk & -> & Hdef).
    eexists. split; [done|]. split; [done|]. right. eauto.
  - intros Hev. exists rawInput.
    destruct rawInput; simpl in Hev; [done|..]; destruct Hev as [<-|[]];
      (split; [done|]); (split; [done|]); by left.
Qed.

Lemma front_decode_inputs opts rawInput :
  List.filter is_front (snd (decode_inputs opts rawInput))
  = snd (decode_inputs opts rawInput).
Proof.
  apply filter_all. intros ev Hev.
  by destruct (decode_inputs_events _ _ _ Hev) as (v & -> & _).
Qed.

Lemma front_report opts error path input (built : option Ctx) :
  List.filter is_front (report_trace opts error path input built) = [].
Proof. unfold report_trace. by destruct (onError opts). Qed.

Lemma front_meta opts (built : option Ctx) ps json errors :
  List.filter is_front (meta_trace opts built ps json errors) = [].
Proof. unfold meta_trace. by destruct (responseMeta opts). Qed.

Lemma front_catch opts (built : option Ctx) ps e :
  List.filter is_front (catch_trace opts built ps e) = [].
Proof.
  unfold catch_trace. simpl.
  destruct (getErrorShape _ _ _ _ _ _); [done|].
  rewrite List.filter_app, front_report. simpl.
  destruct (top_report opts e built); [done|]. apply front_meta.
Qed.

Lemma front_caught opts (built : option Ctx) ps evs r :
  List.filter is_front (snd (caught opts built ps evs r))
  = List.filter is_front evs.
Proof.
  destruct r as [e|resp]; simpl; [|done].
  by rewrite List.filter_app, front_catch, app_nil_r.
Qed.

Lemma front_tasks opts (built : option Ctx) inputs :
  List.filter is_front (tasks_trace opts built inputs)
  = imap (fun index path =>
            EvCallProcedure built path (input_at inputs index) (type opts))
      (request_paths opts).
Proof.
  apply filter_concat_imap. intros index path. unfold task_trace. simpl.
  f_equal. destruct (callProcedure _ _ _ _ _); [|done]. apply front_report.
Qed.

Lemma front_envelopes opts (built : option Ctx) rawResults :
  List.filter is_front (snd (envelopes_of opts built rawResults)) = [].
Proof.
  induction rawResults as [|obj rest IH]; simpl; [done|].
  destruct obj as [input path data|input path error].
  - by destruct (envelopes_of opts built rest).
  - destruct (getErrorShape _ _ _ _ _ _); [done|].
    by destruct (envelopes_of opts built rest).
Qed.

Lemma front_dispatch opts (built : option Ctx) ps inputs :
  List.filter is_front (dispatch_trace opts built ps inputs)
  = imap (fun index path =>
            EvCallProcedure built path (input_at inputs index) (type opts))
      (request_paths opts).
Proof.
  unfold dispatch_trace. rewrite List.filter_app, front_tasks.
  destruct (first_rejection 0 _) as [[j e]|]; [by rewrite app_nil_r|].
  rewrite List.filter_app, front_envelopes. simpl.
  destruct (fst (envelopes_of _ _ _)); [by rewrite app_nil_r|].
  by rewrite front_meta, app_nil_r.
Qed.

(** Whatever the hooks do, a request invokes the context factory, the
    transformer and the procedures as [front_of] says. *)
Lemma front_handler opts :
  List.filter is_front (snd (requestHandlerInner opts)) = front_of opts.
Proof.
  rewrite handler_run. unfold front_of.
  destruct (is_head opts); [done|].
  destruct (batching_rejected opts); [by rewrite front_caught|].
  destruct (method_rejected opts); [by rewrite front_caught|].
  destruct (getRawProcedureInputOrThrow (req opts)) as [e|rawInput];
    [by rewrite front_caught|].
  destruct (createContext opts tt) as [e|c]; [by rewrite front_caught|].
  destruct (fst (decode_inputs opts rawInput)) as [e|inputs];
    rewrite front_caught; simpl; f_equal.
  - by rewrite front_decode_inputs, app_nil_r.
  - by rewrite List.filter_app, front_decode_inputs, front_dispatch.
Qed.

Lemma in_front_of opts ev :
  In ev (snd (requestHandlerInner opts)) -> is_front ev = true ->
  In ev (front_of opts).
Proof.
  intros Hin Hfront. rewrite <- front_handler.
  apply List.filter_In. by split.
Qed.

Lemma in_imap {A B} (f : nat -> A -> B) (l : list A) (y : B) :
  In y (imap f l) -> exists index x, l !! index = Some x /\ y = f index x.
Proof.
  intros Hin. apply list_elem_of_In, list_elem_of_lookup in Hin as [index Hat].
  rewrite list_lookup_imap in Hat.
  destruct (l !! index) as [x|] eqn:Hx; [|done].
  exists index, x. split; [done|]. by injection Hat as <-.
Qed.

(** X3.  The context factory is invoked exactly once for a request that
    passes the batching gate, the method gate and the parsing of its raw
    input, also when the factory or the decoding of the inputs then fails,
    and it is not invoked at all for a [HEAD] or for a request stopped at one
    of these three gates; the hooks have no part in it. *)
Theorem context_created_once opts :
  List.filter is_create (snd (requestHandlerInner opts))
  = if is_head opts || batching_rejected opts || method_rejected opts then []
    else
      match getRawProcedureInputOrThrow (req opts) with
      | inl _ => []
      | inr _ => [EvCreateContext]
      end.
Proof.
  rewrite <- (filter_filter_imp is_create is_front)
    by (by intros []).
  rewrite front_handler. unfold front_of.
  destruct (is_head opts); [done|].
  destruct (batching_rejected opts); [done|].
  destruct (method_rejected opts); [done|]. simpl.
  destruct (getRawProcedureInputOrThrow (req opts)) as [e|rawInput]; [done|].
  simpl. f_equal.
  destruct (createContext opts tt) as [e|c]; [done|].
  rewrite List.filter_app.
  rewrite (filter_none is_create (snd (decode_inputs opts rawInput))).
  - destruct (fst (decode_inputs opts rawInput)) as [e|inputs]; [done|].
    apply filter_none. intros ev Hev.
    by destruct (in_imap _ _ _ Hev) as (index & p & _ & ->).
  - intros ev Hev.
    by destruct (decode_inputs_events _ _ _ Hev) as (v & -> & _).
Qed.

(** The kinds of call that pass the method gate. *)
Lemma method_served opts :
  method_rejected opts = false ->
  type opts = Query \/ type opts = Mutation
  \/ (In (method (req opts)) Object_prototype_members
      /\ type opts = Inherited (method (req opts))).
Proof.
  unfold method_rejected, type, procedure_type_of.
  destruct (HTTP_METHOD_PROCEDURE_TYPE_MAP !! method (req opts)) as [kind|]
    eqn:Hkind.
  - unfold HTTP_METHOD_PROCEDURE_TYPE_MAP in Hkind.
    apply lookup_insert_Some in Hkind as [[_ <-]|[_ Hkind]]; [auto|].
    apply lookup_insert_Some in Hkind as [[_ <-]|[_ Hkind]]; [auto|].
    by apply lookup_singleton_Some in Hkind as [_ <-].
  - destruct (existsb _ _) eqn:Hm; [|done]. intros _. right. right.
    split; [|done]. by apply existsb_eqb_In.
Qed.

(** X4.  A procedure is only ever called for a request that passed the
    batching and method gates: the kind of the call is that of the request,
    query or mutation or else the member of [Object.prototype] that the
    method names, never subscription or unknown; its context is the one the
    factory returned for this request, its path is one of the paths of the
    request and its input is what the inputs hold at the position of that
    path; the hooks have no part in it. *)
Theorem calls_only_when_served opts built path input kind :
  In (EvCallProcedure built path input kind) (snd (requestHandlerInner opts)) ->
  kind = type opts
  /\ (kind = Query \/ kind = Mutation
      \/ (In (method (req opts)) Object_prototype_members
          /\ kind = Inherited (method (req opts))))
  /\ batching_rejected opts = false
  /\ (exists c, built = Some c /\ createContext opts tt = inr c)
  /\ (exists index rawInput inputs,
        request_paths opts !! index = Some path
        /\ getRawProcedureInputOrThrow (req opts) = inr rawInput
        /\ fst (getInputs opts rawInput initial) = inr inputs
        /\ input = input_at inputs index).
Proof.
  intros Hin. apply in_front_of in Hin; [|done]. unfold front_of in Hin.
  destruct (is_head opts); [done|].
  destruct (batching_rejected opts); [done|].
  destruct (method_rejected opts) eqn:Hm; [done|].
  destruct (getRawProcedureInputOrThrow (req opts)) as [e|rawInput]; [done|].
  destruct Hin as [Hin|Hin]; [done|].
  destruct (createContext opts tt) as [e|c]; [done|].
  apply in_app_or in Hin as [Hin|Hin].
  { by destruct (decode_inputs_events _ _ _ Hin) as (v & ? & _). }
  destruct (fst (decode_inputs opts rawInput)) as [e|inputs] eqn:Hinputs;
    [done|].
  destruct (in_imap _ _ _ Hin) as (index & p & Hp & Heq).
  injection Heq as -> -> -> ->.
  split; [done|]. split; [by apply method_served|]. split; [done|].
  split; [by exists c|].
  exists index, rawInput, inputs. by rewrite getInputs_outcome.
Qed.

(** X5.  The input transformer is never invoked on [undefined]; it is only
    invoked on the raw input of the request when the call is single, and on
    properties of the raw input when the request is a batch. *)
Theorem transformer_inputs opts v :
  In (EvDeserialize v) (snd (requestHandlerInner opts)) ->
  v <> VUndefined
  /\ exists rawInput,
       getRawProcedureInputOrThrow (req opts) = inr rawInput
       /\ (isBatchCall opts = false /\ v = rawInput
           \/ isBatchCall opts = true
              /\ exists k, In k (for_in_keys rawInput)
                           /\ v = get_prop rawInput k).
Proof.
  intros Hin. apply in_front_of in Hin; [|done]. unfold front_of in Hin.
  destruct (is_head opts); [done|].
  destruct (batching_rejected opts); [done|].
  destruct (method_rejected opts); [done|].
  destruct (getRawProcedureInputOrThrow (req opts)) as [e|rawInput]; [done|].
  destruct Hin as [Hin|Hin]; [done|].
  destruct (createContext opts tt) as [e|c]; [done|].
  apply in_app_or in Hin as [Hin|Hin].
  - destruct (decode_inputs_events _ _ _ Hin) as (v' & Heq & Hdef & Hsrc).
    injection Heq as ->. split; [done|]. by exists rawInput.
  - destruct (fst (decode_inputs opts rawInput)) as [e|inputs]; [done|].
    by destruct (in_imap _ _ _ Hin) as (index & p & _ & ?).
Qed.

(** X6.  Each call of a request that passes the gates receives its own
    input: a single call receives the deserialized raw input; the call at a
    position of a batch receives the deserialized value of the property of
    the raw input named by the decimal spelling of that position and, when
    there is no such property, what the deserialized value of the property
    [__proto__] holds under that name if it is an object, an array or
    [null], and [undefined] otherwise. *)
Theorem calls_receive_own_input opts rawInput c inputs :
  dispatches opts rawInput c inputs ->
  (isBatchCall opts = false ->
   exists v,
     decode opts rawInput = inr v
     /\ procedure_calls (snd (requestHandlerInner opts))
        = [EvCallProcedure (Some c) (path opts) v (type opts)])
  /\ (isBatchCall opts = true ->
      forall index path,
        request_paths opts !! index = Some path ->
        exists v,
          procedure_calls (snd (requestHandlerInner opts)) !! index
          = Some (EvCallProcedure (Some c) path v (type opts))
          /\ (In (index_key index) (for_in_keys rawInput) ->
              decode opts (get_prop rawInput (index_key index)) = inr v)
          /\ (~ In (index_key index) (for_in_keys rawInput) ->
              exists p,
                decode opts (get_prop rawInput "__proto__") = inr p
                /\ v = if can_be_prototype p
                       then get_prop p (index_key index)
                       else VUndefined)).
Proof.
  intros Hd. rewrite (dispatches_calls opts rawInput c inputs Hd).
  destruct Hd as (_ & _ & _ & _ & _ & Hin).
  rewrite getInputs_outcome in Hin. unfold decode_inputs in Hin.
  unfold request_paths. split; intros Hbatch; rewrite Hbatch in *; simpl in *.
  - destruct (decode opts rawInput) as [e|v]; [done|]. injection Hin as <-.
    exists v. split; [done|]. unfold input_at. simpl.
    by rewrite lookup_singleton_eq.
  - intros index path Hpath. rewrite list_lookup_imap, Hpath. simpl.
    destruct (not_an_object rawInput) eqn:Hobj; [done|].
    exists (input_at inputs index). split; [done|].
    destruct (input_at_decoded opts rawInput inputs index Hin)
      as [Hpresent Habsent].
    split; [done|]. intros Hk. destruct (Habsent Hk) as (p & Hp & ->).
    by exists p.
Qed.

(** ** The shape of a response *)

(** X7.  Whatever the hooks do, the body of the response to a request that
    is not a [HEAD] is the serialization of one envelope when the request is a
    single call, and, when the request is a batch, of the array of exactly as
    many envelopes as the path has comma-separated pieces, or else of the one
    top-level envelope of an error shaped with an undefined path: never of an
    array of another length, never of [undefined]. *)
Theorem response_shape opts resp log :
  requestHandlerInner opts = (inr resp, log) ->
  is_head opts = false ->
  exists json text,
    serialized (router opts) json = inr text
    /\ resp_body resp = Some text
    /\ (isBatchCall opts = false -> exists envelope, json = One envelope)
    /\ (isBatchCall opts = true ->
        (exists envelopes,
           json = Many envelopes
           /\ length envelopes = S (count_char comma (path opts)))
        \/ (exists e built shaped,
              getErrorShape (router opts) (getErrorFromUnknown e) (type opts)
                None VUndefined built = inr shaped
              /\ json = One (TRPCErrorResponse shaped))).
Proof.
  intros Hrun Hhead.
  destruct (handler_response opts resp log Hrun Hhead)
    as (built & ps & json & errors & meta & text & pre
        & _ & Htext & -> & _ & Hjson).
  exists json, text. split; [done|]. split; [done|].
  destruct Hjson as [(e & shaped & Hshape & ->) | (envs & Hlen & ->)].
  - split; intros _; [by eexists|]. right. by exists e, built, shaped.
  - unfold result_of, request_paths in *. split; intros Hbatch;
      rewrite Hbatch in *.
    + destruct envs as [|env rest]; [done|]. by eexists.
    + left. eexists. split; [done|]. by rewrite Hlen, length_split.
Qed.

Lemma response_without_meta opts resp log :
  requestHandlerInner opts = (inr resp, log) ->
  is_head opts = false ->
  (forall hook built ps kind data errors,
     responseMeta opts = Some hook ->
     hook built ps kind data errors = inr None) ->
  resp_headers resp
  = Some {[ "Content-Type" := HString "application/json" ]}
  /\ exists json text,
       status resp = getHTTPStatusCode json
       /\ serialized (router opts) json = inr text
       /\ resp_body resp = Some text.
Proof.
  intros Hrun Hhead Hmeta.
  destruct (handler_response opts resp log Hrun Hhead)
    as (built & ps & json & errors & meta & text & pre
        & Hfor & Htext & -> & _ & _).
  assert (Hno : meta = no_meta).
  { unfold meta_for in Hfor.
    destruct (responseMeta opts) as [hook|] eqn:Hhook; [|by injection Hfor].
    rewrite (Hmeta hook) in Hfor by done. by injection Hfor. }
  subst meta. unfold response_of. simpl. split.
  - by rewrite map_to_list_empty.
  - by exists json, text.
Qed.

(** X8.  When [responseMeta] is not set, or answers nothing, the response
    to a request that is not a [HEAD] has the one header [Content-Type:
    application/json], and its status is the status derived from the very
    JSON, not yet transformed, whose transformation is serialized in the
    body. *)
Theorem default_status_and_headers opts resp log :
  requestHandlerInner opts = (inr resp, log) ->
  is_head opts = false ->
  (forall hook built ps kind data errors,
     responseMeta opts = Some hook ->
     hook built ps kind data errors = inr None) ->
  resp_headers resp
  = Some {[ "Content-Type" := HString "application/json" ]}
  /\ exists json text,
       status resp = getHTTPStatusCode json
       /\ serialized (router opts) json = inr text
       /\ resp_body resp = Some text.
Proof. apply response_without_meta. Qed.

(** ** What [responseMeta] is given *)





(** ** When the observer throws on the failure of a call *)

(** X10.  In a request that passes the gates, when the observer throws on
    the report of the failure of a call, the request is answered for one
    such exception alone, that of a task no other rejected task settles
    before.  That exception goes through the [catch] block: if the error
    formatter throws on it, the handler rejects with what the formatter
    threw; once it is shaped, if the observer throws again on the report of
    it, the handler rejects with what the observer threw, and if the observer
    returns, and [responseMeta] and the serialization too, the response is
    the single top-level envelope of that exception, whatever the other calls
    gave. *)
Theorem observer_failure_in_batch opts rawInput c inputs index path e0 :
  dispatches opts rawInput c inputs ->
  request_paths opts !! index = Some path ->
  task_outcome opts (Some c) inputs index path = inl e0 ->
  exists j p e,
    request_paths opts !! j = Some p
    /\ task_outcome opts (Some c) inputs j p = inl e
    /\ (forall k q e',
          request_paths opts !! k = Some q ->
          task_outcome opts (Some c) inputs k q = inl e' ->
          (settle_time j <= settle_time k)%nat)
    /\ (forall thrown_by_formatter,
          getErrorShape (router opts) (getErrorFromUnknown e) (type opts)
            None VUndefined (Some c) = inl thrown_by_formatter ->
          fst (requestHandlerInner opts) = inl thrown_by_formatter)
    /\ (forall shaped,
          getErrorShape (router opts) (getErrorFromUnknown e) (type opts)
            None VUndefined (Some c) = inr shaped ->
          (forall thrown_by_hook,
             top_report opts e (Some c) = inl thrown_by_hook ->
             fst (requestHandlerInner opts) = inl thrown_by_hook)
          /\ (top_report opts e (Some c) = inr tt ->
              responseMeta_returns opts ->
              forall text,
                serialized (router opts) (One (TRPCErrorResponse shaped)) = inr text ->
                exists resp,
                  fst (requestHandlerInner opts) = inr resp
                  /\ resp_body resp = Some text)).
Proof.
  intros Hd Hpath Hrej. rewrite (dispatches_run opts _ _ _ Hd).
  unfold dispatch_outcome.
  destruct (first_rejection 0
              (settled opts (Some c) inputs)) as [[j e]|] eqn:Hfirst.
  - destruct (first_rejection_some _ _ _ _ Hfirst) as (k & -> & Hat & Hmin).
    unfold settled in Hat, Hmin. simpl in *. rewrite list_lookup_imap in Hat.
    destruct (request_paths opts !! k) as [p|] eqn:Hp; [|done].
    injection Hat as Hat.
    exists k, p, e. split; [done|]. split; [done|]. split.
    { intros k' q e' Hq Hk'. apply (Hmin k' e').
      by rewrite list_lookup_imap, Hq, <- Hk'. }
    split; [|intros shaped Hshape; split].
    + intros v Hshape. unfold catch_outcome. by rewrite Hshape.
    + intros v Hreport. unfold catch_outcome. by rewrite Hshape, Hreport.
    + intros Hreport Hmeta text Htext.
      destruct (catch_outcome_returns opts (Some c) (Some (request_paths opts))
                  e shaped text Hshape Hreport Hmeta Htext)
        as (meta & _ & ->).
      by eexists.
  - pose proof (first_rejection_none_all _ _ Hfirst) as Hall.
    apply (f_equal (fun l => l !! index)) in Hall. unfold settled in Hall.
    rewrite list_lookup_imap, Hpath, list_lookup_fmap in Hall. simpl in Hall.
    rewrite Hrej in Hall. by destruct (fulfilled _ !! index).
Qed.

(** ** Where the raw input is read *)

Lemma query_has_get q name :
  query_has q name = match query_get q name with Some _ => true | None => false end.
Proof.
  induction q as [|[k v] q IH]; simpl; [done|].
  by destruct (String.eqb k name).
Qed.

(** X11.  The raw input of a [GET] is read from the first [input] query
    parameter alone, the body playing no part; the raw input of any other
    method is read from the body alone, an [input] query parameter playing no
    part. *)
Theorem raw_input_source (r1 r2 : HTTPRequest) :
  method r1 = method r2 ->
  (method r1 = "GET" ->
   query_get (query r1) "input" = query_get (query r2) "input" ->
   getRawProcedureInputOrThrow r1 = getRawProcedureInputOrThrow r2)
  /\ (method r1 <> "GET" ->
      body r1 = body r2 ->
      getRawProcedureInputOrThrow r1 = getRawProcedureInputOrThrow r2).
Proof.
  intros Hmethod. unfold getRawProcedureInputOrThrow. rewrite <- Hmethod.
  split.
  - intros -> Hget. simpl. by rewrite !query_has_get, Hget.
  - intros Hm Hbody. apply String.eqb_neq in Hm. by rewrite Hm, Hbody.
Qed.

(** ** The paths of a request *)

Lemma append_cons x (a b : string) :
  String.append (String x a) b = String x (String.append a b).
Proof. reflexivity. Qed.

Lemma append_nil_r (a : string) : String.append a "" = a.
Proof.
  induction a as [|x a IH]; [done|]. by rewrite append_cons, IH.
Qed.

Lemma append_assoc (a b d : string) :
  String.append (String.append a b) d = String.append a (String.append b d).
Proof.
  induction a as [|x a IH]; [done|]. by rewrite !append_cons, IH.
Qed.

Lemma count_char_append sep (a b : string) :
  count_char sep (String.append a b)
  = (count_char sep a + count_char sep b)%nat.
Proof.
  induction a as [|x a IH]; [done|].
  rewrite append_cons. simpl. rewrite IH. lia.
Qed.

Lemma concat_split_go sep text cur :
  String.concat (String sep "") (split_go sep text cur)
  = String.append cur text.
Proof.
  revert cur. induction text as [|a rest IH]; intros cur; simpl.
  - by rewrite append_nil_r.
  - destruct (Ascii.eqb a sep) eqn:Ha.
    + apply Ascii.eqb_eq in Ha as ->. specialize (IH "").
      pose proof (length_split_go sep rest "") as Hlen.
      destruct (split_go sep rest "") as [|x l]; [done|].
      change (String.concat (String sep "") (cur :: x :: l))
        with (String.append cur
                (String.append (String sep "")
                   (String.concat (String sep "") (x :: l)))).
      by rewrite IH.
    + by rewrite IH, append_assoc.
Qed.

Lemma split_go_pieces sep text cur piece :
  count_char sep cur = 0%nat ->
  In piece (split_go sep text cur) ->
  count_char sep piece = 0%nat.
Proof.
  revert cur. induction text as [|a rest IH]; intros cur Hcur; simpl.
  - by intros [<-|[]].
  - destruct (Ascii.eqb a sep) eqn:Ha.
    + intros [<-|Hin]; [done|]. by apply (IH "").
    + apply IH. rewrite count_char_append. simpl. rewrite Ha. lia.
Qed.

(** X12.  A request has at least one path.  The paths of a batch are the
    pieces of [opts.path] between its commas, empty pieces included: joined
    again by commas they give [opts.path] back, there is one more of them
    than there are commas, and none holds a comma.  The path of a single
    call is [opts.path] whole, commas included. *)
Theorem paths_of_request opts :
  request_paths opts <> []
  /\ (isBatchCall opts = true ->
      String.concat "," (request_paths opts) = path opts
      /\ length (request_paths opts) = S (count_char comma (path opts))
      /\ forall piece,
           In piece (request_paths opts) -> count_char comma piece = 0%nat)
  /\ (isBatchCall opts = false -> request_paths opts = [path opts]).
Proof.
  unfold request_paths. split; [|split]; destruct (isBatchCall opts); try done.
  - intros Hnil. apply (f_equal length) in Hnil.
    by rewrite length_split in Hnil.
  - intros _. split; [apply (concat_split_go comma (path opts) "")|].
    split; [apply length_split|].
    intros piece. by apply split_go_pieces.
Qed.

(** ** What the hooks are told of a request-level failure *)

(** X16.  On a request-level failure, whatever the observer does, the error
    is first shaped; once the error formatter has returned, the error is
    reported to the observer, and [responseMeta] is consulted last, and only
    if the observer returned.  All three are given an undefined path and
    input and the context built so far.  [responseMeta] is given the one
    top-level envelope and the one normalized error, and the paths of the
    request only if the failure came after the raw input was read:
    [undefined] for a failure of the batching gate, of the method gate or of
    the parsing. *)
Theorem failure_hooks_in_order opts e (built : option Ctx) :
  gate_failure opts e built ->
  snd (requestHandlerInner opts)
  = front_of opts
    ++ [EvGetErrorShape (getErrorFromUnknown e) (type opts) None VUndefined
          built]
    ++ match getErrorShape (router opts) (getErrorFromUnknown e) (type opts)
               None VUndefined built with
       | inl _ => []
       | inr shaped =>
           match onError opts with
           | Some _ =>
               [EvOnError (getErrorFromUnknown e) None VUndefined built
                  (type opts)]
           | None => []
           end
           ++ match top_report opts e built, responseMeta opts with
              | inr _, Some _ =>
                  [EvResponseMeta built (paths_at_failure opts) (type opts)
                     [One (TRPCErrorResponse shaped)]
                     [getErrorFromUnknown e]]
              | _, _ => []
              end
       end.
Proof.
  intros Hgate. rewrite (gate_failure_run opts e built Hgate). cbn [snd].
  unfold catch_trace, report_trace, meta_trace. simpl.
  destruct (getErrorShape _ _ _ _ _ _) as [v|shaped]; [done|].
  destruct (top_report opts e built); [done|].
  by destruct (responseMeta opts).
Qed.

End Coverage.

(** ** The outer handler, [requestHandler] *)

(** [ToBoolean(v)] *)
Definition truthy (v : value) : bool :=
  match v with
  | VUndefined | VNull => false
  | VBool b => b
  | VNum n => truthy_number n
  | VStr text => negb (String.eqb text "")
  | VArr _ | VObj _ => true
  end.

(** [a || b] *)
Definition js_or (a b : value) : value := if truthy a then a else b.

(** [!value] is false for a header value *)
Definition header_truthy (v : header_value) : bool :=
  match v with
  | HUndefined => false
  | HString text => negb (String.eqb text "")
  | HStrings _ => true
  end.

(** What [requestHandler] reads of the server's request. *)
Record BaseRequest : Type := {
  req_method : string;
  req_headers : list (string * string);
  req_query : value;
  req_url : value;
}.

(** What [requestHandler] has done to the server's response: the status
    code it holds, the headers that [setHeader] has set, the bodies that
    [end] was given. *)
Record BaseResponse : Type := {
  statusCode : option float;
  sent_headers : gmap string header_value;
  ended : list (option string);
}.

Section Outer.

Context {Ctx Shape : Type} {E : @Externals Ctx Shape}.

Record HTTPHandlerOptions : Type := {
  base_req : BaseRequest;
  base_res : BaseResponse;
  base_path : string;
  base_router : @Router Ctx Shape;
  base_createContext : option (BaseRequest -> BaseResponse -> thrown + Ctx);
  teardown : option (unit -> thrown + unit);
}.

(** [getPostBody] is imported, [URLSearchParams] is a built-in, [setHeader]
    and [end] are methods of the server's response: each returns or throws,
    the two methods depending on the response as it is when they are called.
    A context factory that is not set gives the context [undefined]. *)
Class OuterExternals : Type := {
  getPostBody : HTTPHandlerOptions -> thrown + value;
  URLSearchParams_new : value -> thrown + list (string * string);
  res_setHeader : BaseResponse -> string -> header_value -> thrown + unit;
  res_end : BaseResponse -> option string -> thrown + unit;
  undefined_context : Ctx;
}.

Context {O : OuterExternals}.

Inductive outer_event : Type :=
| EvGetPostBody
| EvInner (ev : @event Ctx Shape)
| EvSetHeader (key : string) (v : header_value)
| EvEnd (body : option string)
| EvTeardown.

(** What a run of [requestHandler] leaves: what it returns or throws, the
    server's response, and what it invoked.  The collaborators are given the
    server's response as a value: a context factory or a procedure that
    writes to it is outside this model, in which the response [requestHandler]
    writes to is the one of its options. *)
Record Handled : Type := {
  returned : thrown + unit;
  response : BaseResponse;
  invoked : list outer_event;
}.

(** The options [requestHandler] hands to [requestHandlerInner]: the path,
    the wrapped context factory, the router and the request, nothing else. *)
Definition inner_options (opts : HTTPHandlerOptions) (body : value)
    (query : list (string * string)) : @HTTPHandlerInnerOptions Ctx Shape :=
  {| path := base_path opts;
     createContext := fun _ =>
       match base_createContext opts with
       | Some factory => factory (base_req opts) (base_res opts)
       | None => inr undefined_context
       end;
     router := base_router opts;
     req :=
       {| method := req_method (base_req opts);
          headers := req_headers (base_req opts);
          query := query;
          body := body |};
     onError := None;
     responseMeta := None;
     batching := None |}.

(** [!res.statusCode || res.statusCode === 200] *)
Definition status_unset (res : BaseResponse) : bool :=
  match statusCode res with
  | None => true
  | Some n => negb (truthy_number n) || PrimFloat.eqb n 200
  end.

(** [if ('status' in result && (...)) res.statusCode = result.status] *)
Definition write_status (res : BaseResponse) (result : HTTPResponse)
  : BaseResponse :=
  if status_unset res
  then {| statusCode := Some (status result);
          sent_headers := sent_headers res; ended := ended res |}
  else res.

(** The response once [res.setHeader(key, value)] has returned. *)
Definition setHeader (res : BaseResponse) (key : string) (v : header_value)
  : BaseResponse :=
  {| statusCode := statusCode res;
     sent_headers := <[key := v]> (sent_headers res);
     ended := ended res |}.

(** The loop over [Object.entries(result.headers ?? {})]: what it returns
    or throws, the response it leaves and the calls of [setHeader] it makes. *)
Fixpoint write_headers (res : BaseResponse)
    (entries : list (string * header_value))
  : (thrown + unit) * BaseResponse * list outer_event :=
  match entries with
  | [] => (inr tt, res, [])
  | (key, v) :: rest =>
      if negb (header_truthy v) then write_headers res rest
      else
        match res_setHeader res key v with
        | inl e => (inl e, res, [EvSetHeader key v])
        | inr _ =>
            let '(r, res', evs) := write_headers (setHeader res key v) rest in
            (r, res', EvSetHeader key v :: evs)
        end
  end.

(** The response once [res.end(body)] has returned. *)
Definition end_response (res : BaseResponse) (body : option string)
  : BaseResponse :=
  {| statusCode := statusCode res;
     sent_headers := sent_headers res;
     ended := ended res ++ [body] |}.

Definition requestHandler (opts : HTTPHandlerOptions) : Handled :=
  match getPostBody opts with
  | inl e =>
      {| returned := inl e; response := base_res opts;
         invoked := [EvGetPostBody] |}
  | inr body =>
      match URLSearchParams_new
              (js_or (req_query (base_req opts)) (req_url (base_req opts)))
      with
      | inl e =>
          {| returned := inl e; response := base_res opts;
             invoked := [EvGetPostBody] |}
      | inr query =>
          let '(outcome, log) :=
            requestHandlerInner (inner_options opts body query) in
          let seen := EvGetPostBody :: map EvInner log in
          match outcome with
          | inl e =>
              {| returned := inl e; response := base_res opts;
                 invoked := seen |}
          | inr result =>
              let res := write_status (base_res opts) result in
              let '(written, res, sets) :=
                write_headers res
                  (map_to_list (default ∅ (resp_headers result))) in
              match written with
              | inl e =>
                  {| returned := inl e; response := res;
                     invoked := seen ++ sets |}
              | inr _ =>
                  let ending := [EvEnd (resp_body result)] in
                  match res_end res (resp_body result) with
                  | inl e =>
                      {| returned := inl e; response := res;
                         invoked := seen ++ sets ++ ending |}
                  | inr _ =>
                      let res := end_response res (resp_body result) in
                      match teardown opts with
                      | None =>
                          {| returned := inr tt; response := res;
                             invoked := seen ++ sets ++ ending |}
                      | Some hook =>
                          {| returned := hook tt; response := res;
                             invoked :=
                               seen ++ sets ++ ending ++ [EvTeardown] |}
                      end
                  end
              end
          end
      end
  end.

Implicit Types (opts : HTTPHandlerOptions).

(** The calls that [requestHandler] makes itself on the adapter's side
    return: [URLSearchParams], [setHeader] and [end]. *)
Definition adapter_returns : Prop :=
  (forall source, exists query, URLSearchParams_new source = inr query)
  /\ (forall res key v, res_setHeader res key v = inr tt)
  /\ (forall res body, res_end res body = inr tt).

Definition is_HEAD opts : bool := String.eqb (req_method (base_req opts)) "HEAD".

Definition content_type : header_value := HString "application/json".

Lemma inner_answers opts body query :
  getErrorShape_returns (base_router opts) ->
  serialization_returns (base_router opts) ->
  exists result,
    fst (requestHandlerInner (inner_options opts body query)) = inr result.
Proof.
  intros Hshape Hser. by apply handler_answers.
Qed.

Lemma inner_headers opts body query result log :
  requestHandlerInner (inner_options opts body query) = (inr result, log) ->
  resp_headers result
  = if is_HEAD opts then None else Some {[ "Content-Type" := content_type ]}.
Proof.
  intros Hrun. unfold is_HEAD.
  destruct (String.eqb (req_method (base_req opts)) "HEAD") eqn:Hhead.
  - rewrite handler_head in Hrun by done. by injection Hrun as <- _.
  - by destruct (response_without_meta _ _ _ Hrun Hhead) as [-> _].
Qed.

Lemma sent_headers_write_status res result :
  sent_headers (write_status res result) = sent_headers res.
Proof. unfold write_status. by destruct (status_unset res). Qed.



(** What the header loop does with the headers of a result of the inner
    handler. *)
Lemma write_headers_inner opts body query result log res :
  requestHandlerInner (inner_options opts body query) = (inr result, log) ->
  write_headers res (map_to_list (default ∅ (resp_headers result)))
  = if is_HEAD opts then (inr tt, res, [])
    else
      match res_setHeader res "Content-Type" content_type with
      | inl e => (inl e, res, [EvSetHeader "Content-Type" content_type])
      | inr _ =>
          (inr tt, setHeader res "Content-Type" content_type,
           [EvSetHeader "Content-Type" content_type])
      end.
Proof.
  intros Hrun. rewrite (inner_headers _ _ _ _ _ Hrun).
  destruct (is_HEAD opts); simpl.
  - by rewrite map_to_list_empty.
  - rewrite map_to_list_singleton. simpl.
    by destruct (res_setHeader res "Content-Type" content_type).
Qed.

(** The run of [requestHandler] when the adapter's calls return and the
    inner handler answers. *)
Lemma requestHandler_served opts body query result log :
  adapter_returns ->
  getPostBody opts = inr body ->
  URLSearchParams_new
    (js_or (req_query (base_req opts)) (req_url (base_req opts))) = inr query ->
  requestHandlerInner (inner_options opts body query) = (inr result, log) ->
  requestHandler opts
  = {| returned :=
         match teardown opts with Some hook => hook tt | None => inr tt end;
       response :=
         end_response
           (if is_HEAD opts then write_status (base_res opts) result
            else setHeader (write_status (base_res opts) result)
                   "Content-Type" content_type)
           (resp_body result);
       invoked :=
         EvGetPostBody :: map EvInner log
         ++ (if is_HEAD opts then []
             else [EvSetHeader "Content-Type" content_type])
         ++ [EvEnd (resp_body result)]
         ++ match teardown opts with Some _ => [EvTeardown] | None => [] end |}.
Proof.
  intros (_ & Hset & Hend) Hbody Hquery Hrun. unfold requestHandler.
  rewrite Hbody, Hquery, Hrun.
  rewrite (write_headers_inner _ _ _ _ _ _ Hrun).
  destruct (is_HEAD opts).
  - rewrite Hend. destruct (teardown opts); simpl; by rewrite ?app_nil_r.
  - rewrite Hset, Hend. destruct (teardown opts); simpl; by rewrite ?app_nil_r.
Qed.

(** X13.  When [getPostBody] throws, [requestHandler] rejects with what it
    threw, nothing else has been invoked and the server's response is as it
    was, neither written nor ended.  When the adapter's own calls return
    ([URLSearchParams], [setHeader], [end]), and the error formatter of the
    router and the serialization too, [requestHandler] rejects in two cases
    only: when [getPostBody] throws and when [teardown] throws, with what it
    threw; an error of the request, of the context factory, of the input
    transformer or of a procedure never makes it reject. *)
Theorem requestHandler_rejections opts e :
  (getPostBody opts = inl e ->
   returned (requestHandler opts) = inl e
   /\ response (requestHandler opts) = base_res opts
   /\ invoked (requestHandler opts) = [EvGetPostBody])
  /\ (adapter_returns ->
      getErrorShape_returns (base_router opts) ->
      serialization_returns (base_router opts) ->
      (returned (requestHandler opts) = inl e
       <-> getPostBody opts = inl e
           \/ exists body hook,
                getPostBody opts = inr body
                /\ teardown opts = Some hook
                /\ hook tt = inl e)).
Proof.
  split.
  - intros Hbody. unfold requestHandler. by rewrite Hbody.
  - intros Hadapter Hshape Hser.
    destruct (getPostBody opts) as [e'|body] eqn:Hbody.
    { unfold requestHandler. rewrite Hbody. simpl. split.
      - intros [= ->]. by left.
      - intros [[= ->]|(body & hook & ? & _)]; done. }
    destruct (proj1 Hadapter
                (js_or (req_query (base_req opts)) (req_url (base_req opts))))
      as [query Hquery].
    destruct (inner_answers opts body query Hshape Hser) as [result Hrun].
    destruct (requestHandlerInner (inner_options opts body query))
      as [outcome log] eqn:Hinner. simpl in Hrun. subst outcome.
    rewrite (requestHandler_served opts body query result log) by done.
    simpl. destruct (teardown opts) as [hook|]; split.
    + intros Hthrow. right. by exists body, hook.
    + intros [|(body' & hook' & _ & [= <-] & Hthrow)]; done.
    + done.
    + by intros [|(body' & hook' & _ & ? & _)].
Qed.


(** X15.  Through [requestHandler] the hooks of the inner handler are not
    set, so the only header it ever sets on the server's response is
    [Content-Type: application/json]: it sets none for a [HEAD], and for any
    other request it sets that one once the inner handler has answered and
    [setHeader] returns; the headers already set are left as they are. *)
Theorem requestHandler_headers opts body :
  getPostBody opts = inr body ->
  (sent_headers (response (requestHandler opts)) = sent_headers (base_res opts)
   \/ sent_headers (response (requestHandler opts))
      = <[ "Content-Type" := HString "application/json" ]>
          (sent_headers (base_res opts)))
  /\ (req_method (base_req opts) = "HEAD" ->
      sent_headers (response (requestHandler opts))
      = sent_headers (base_res opts))
  /\ (req_method (base_req opts) <> "HEAD" ->
      forall query result log,
        URLSearchParams_new
          (js_or (req_query (base_req opts)) (req_url (base_req opts)))
        = inr query ->
        requestHandlerInner (inner_options opts body query)
        = (inr result, log) ->
        res_setHeader (write_status (base_res opts) result) "Content-Type"
          (HString "application/json") = inr tt ->
        sent_headers (response (requestHandler opts))
        = <[ "Content-Type" := HString "application/json" ]>
            (sent_headers (base_res opts))).
Proof.
  intros Hbody.
  assert (Hrun : sent_headers (response (requestHandler opts))
                 = match URLSearchParams_new
                           (js_or (req_query (base_req opts))
                              (req_url (base_req opts))) with
                   | inl _ => sent_headers (base_res opts)
                   | inr query =>
                       match requestHandlerInner
                               (inner_options opts body query) with
                       | (inl _, _) => sent_headers (base_res opts)
                       | (inr result, _) =>
                           if is_HEAD opts then sent_headers (base_res opts)
                           else
                             match res_setHeader
                                     (write_status (base_res opts) result)
                                     "Content-Type" content_type with
                             | inl _ => sent_headers (base_res opts)
                             | inr _ =>
                                 <[ "Content-Type" := content_type ]>
                                   (sent_headers (base_res opts))
                             end
                       end
                   end).
  { unfold requestHandler. rewrite Hbody.
    destruct (URLSearchParams_new _) as [e|query]; [done|].
    destruct (requestHandlerInner (inner_options opts body query))
      as [[e|result] log] eqn:Hinner; [done|].
    rewrite (write_headers_inner _ _ _ _ _ _ Hinner).
    destruct (is_HEAD opts).
    - destruct (res_end _ _);
        [|destruct (teardown opts)]; simpl;
        by rewrite sent_headers_write_status.
    - destruct (res_setHeader _ _ _);
        [|destruct (res_end _ _); [|destruct (teardown opts)]]; simpl;
        by rewrite sent_headers_write_status. }
  rewrite Hrun. unfold is_HEAD, content_type. split; [|split].
  - destruct (URLSearchParams_new _) as [e|query]; [by left|].
    destruct (requestHandlerInner _) as [[e|result] log]; [by left|].
    destruct (String.eqb _ _); [by left|].
    destruct (res_setHeader _ _ _); [by left|by right].
  - intros ->. simpl.
    destruct (URLSearchParams_new _) as [e|query]; [done|].
    by destruct (requestHandlerInner _) as [[e|result] log].
  - intros Hm query result log -> -> ->.
    apply String.eqb_neq in Hm. by rewrite Hm.
Qed.

End Outer.

(** ** The further properties at the sample requests *)




Lemma context_created_once_witness :
  List.filter is_create (snd (requestHandlerInner sample_batch))
  = [EvCreateContext]
  /\ List.filter is_create
       (snd (requestHandlerInner (sample_opts "constructor" [] VNull "a")))
     = [EvCreateContext]
  /\ List.filter is_create (snd (requestHandlerInner sample_batching_off))
     = [].
Proof.
  split; [|split].
  - exact (context_created_once sample_batch).
  - exact (context_created_once (sample_opts "constructor" [] VNull "a")).
  - exact (context_created_once sample_batching_off).
Defined.

Lemma sample_batch_calls_fail :
  In (EvCallProcedure (Some "ctx") "fail" VUndefined Mutation)
    (snd (requestHandlerInner sample_batch)).
Proof. vm_compute. do 4 right. left. reflexivity. Defined.

Lemma calls_only_when_served_witness :
  Mutation = type sample_batch
  /\ batching_rejected sample_batch = false
  /\ (exists c, Some "ctx" = Some c /\ createContext sample_batch tt = inr c)
  /\ exists index rawInput inputs,
       request_paths sample_batch !! index = Some "fail"
       /\ getRawProcedureInputOrThrow (req sample_batch) = inr rawInput
       /\ fst (getInputs sample_batch rawInput initial) = inr inputs
       /\ VUndefined = input_at inputs index.
Proof.
  destruct (calls_only_when_served sample_batch (Some "ctx") "fail" VUndefined
              Mutation sample_batch_calls_fail)
    as (Htype & _ & Hbatching & Hctx & Hinput).
  split; [exact Htype|]. split; [exact Hbatching|].
  split; [exact Hctx|exact Hinput].
Defined.

Lemma sample_batch_deserializes :
  In (EvDeserialize (VNum 3)) (snd (requestHandlerInner sample_batch)).
Proof. vm_compute. do 2 right. left. reflexivity. Defined.

Lemma transformer_inputs_witness :
  VNum 3 <> VUndefined
  /\ exists rawInput,
       getRawProcedureInputOrThrow (req sample_batch) = inr rawInput
       /\ (isBatchCall sample_batch = false /\ VNum 3 = rawInput
           \/ isBatchCall sample_batch = true
              /\ exists k, In k (for_in_keys rawInput)
                           /\ VNum 3 = get_prop rawInput k).
Proof.
  exact (transformer_inputs sample_batch (VNum 3) sample_batch_deserializes).
Defined.

Lemma sample_proto_batch_dispatches :
  dispatches sample_proto_batch
    (VObj [("__proto__", VObj [("0", VNum 7)])]) "ctx"
    {| own := ∅; proto := Some (VObj [("0", VNum 7)]) |}.
Proof. repeat split; vm_compute; reflexivity. Defined.

Lemma calls_receive_own_input_witness :
  (exists v,
     procedure_calls (snd (requestHandlerInner sample_batch)) !! 2%nat
     = Some (EvCallProcedure (Some "ctx") "c" v Mutation)
     /\ decode sample_batch
          (get_prop (VObj [("0", VNum 1); ("2", VNum 3)]) (index_key 2))
        = inr v)
  /\ exists v,
       procedure_calls (snd (requestHandlerInner sample_proto_batch)) !! 0%nat
       = Some (EvCallProcedure (Some "ctx") "a" v Mutation)
       /\ v = VNum 7.
Proof.
  split.
  - destruct (calls_receive_own_input sample_batch
                (VObj [("0", VNum 1); ("2", VNum 3)]) "ctx"
                sample_batch_inputs sample_batch_dispatches)
      as [_ Hbatch].
    destruct (Hbatch eq_refl 2%nat "c" eq_refl) as (v & Hcall & Hown & _).
    exists v. split; [exact Hcall|].
    apply Hown. right. left. reflexivity.
  - destruct (calls_receive_own_input sample_proto_batch
                (VObj [("__proto__", VObj [("0", VNum 7)])]) "ctx"
                {| own := ∅; proto := Some (VObj [("0", VNum 7)]) |}
                sample_proto_batch_dispatches)
      as [_ Hbatch].
    destruct (Hbatch eq_refl 0%nat "a" eq_refl) as (v & Hcall & _ & Hout).
    destruct Hout as (p & Hp & Hv).
    { simpl. intros [Hk|[]]. discriminate Hk. }
    vm_compute in Hp. injection Hp as <-.
    exists v. split; [exact Hcall|exact Hv].
Defined.

Lemma response_shape_witness :
  exists resp log json text,
    requestHandlerInner sample_batch = (inr resp, log)
    /\ serialized sample_router json = inr text
    /\ resp_body resp = Some text
    /\ ((exists envelopes,
           json = Many envelopes
           /\ length envelopes = S (count_char comma (path sample_batch)))
        \/ exists e built shaped,
             getErrorShape sample_router (getErrorFromUnknown e)
               (type sample_batch) None VUndefined built = inr shaped
             /\ json = One (TRPCErrorResponse shaped)).
Proof.
  destruct (requestHandlerInner sample_batch) as [[e|resp] log] eqn:Hrun.
  - vm_compute in Hrun. discriminate Hrun.
  - destruct (response_shape sample_batch resp log Hrun eq_refl)
      as (json & text & Hser & Hbody & _ & Hbatch).
    exists resp, log, json, text. split; [reflexivity|].
    split; [exact Hser|]. split; [exact Hbody|].
    exact (Hbatch eq_refl).
Defined.

Lemma default_status_and_headers_witness :
  exists resp log,
    requestHandlerInner sample_batch = (inr resp, log)
    /\ resp_headers resp
       = Some {[ "Content-Type" := HString "application/json" ]}.
Proof.
  destruct (requestHandlerInner sample_batch) as [[e|resp] log] eqn:Hrun.
  - vm_compute in Hrun. discriminate Hrun.
  - destruct (default_status_and_headers sample_batch resp log Hrun eq_refl)
      as [Hheaders _].
    + intros hook built ps kind data errors Hhook. discriminate Hhook.
    + exists resp, log. split; [reflexivity|exact Hheaders].
Defined.





Lemma sample_pair_dispatches :
  dispatches (with_onError throwing_hook sample_pair) (VObj []) "ctx"
    {| own := ∅; proto := None |}.
Proof. repeat split; vm_compute; reflexivity. Defined.

Lemma observer_failure_in_batch_witness :
  exists resp,
    fst (requestHandlerInner (with_onError throwing_hook sample_pair))
    = inr resp
    /\ resp_body resp = Some "error:INTERNAL_SERVER_ERROR@undefined".
Proof.
  destruct (observer_failure_in_batch (with_onError throwing_hook sample_pair)
              (VObj []) "ctx" {| own := ∅; proto := None |} 1%nat "fail"
              (JsError "observer failed")
              sample_pair_dispatches eq_refl eq_refl)
    as (j & p & e & Hp & Hout & _ & _ & Hshaped).
  destruct j as [|[|j]]; vm_compute in Hp; try discriminate Hp.
  - injection Hp as <-. vm_compute in Hout. discriminate Hout.
  - injection Hp as <-. vm_compute in Hout. injection Hout as <-.
    destruct (Hshaped "INTERNAL_SERVER_ERROR@undefined" eq_refl)
      as [_ Hreturns].
    exact (Hreturns eq_refl
             (unset_responseMeta_returns
                (with_onError throwing_hook sample_pair) eq_refl)
             "error:INTERNAL_SERVER_ERROR@undefined" eq_refl).
Defined.

Lemma raw_input_source_witness :
  getRawProcedureInputOrThrow
    {| method := "GET"; headers := []; query := [("input", "1")];
       body := VStr "not-json" |}
  = getRawProcedureInputOrThrow
      {| method := "GET"; headers := [];
         query := [("batch", "1"); ("input", "1"); ("input", "null")];
         body := VNull |}.
Proof.
  apply (proj1 (raw_input_source
                  {| method := "GET"; headers := [];
                     query := [("input", "1")]; body := VStr "not-json" |}
                  {| method := "GET"; headers := [];
                     query := [("batch", "1"); ("input", "1");
                               ("input", "null")];
                     body := VNull |} eq_refl));
    reflexivity.
Defined.

Lemma paths_of_request_witness :
  String.concat "," (request_paths sample_batch) = "a,fail,c"
  /\ length (request_paths sample_batch) = 3%nat.
Proof.
  destruct (paths_of_request sample_batch) as (_ & Hbatch & _).
  destruct (Hbatch eq_refl) as (Hjoin & Hlen & _).
  split; [exact Hjoin|exact Hlen].
Defined.

(** A batch whose input is an array, watched by an observer and with a
    [responseMeta] hook. *)
Definition sample_watched_array : @HTTPHandlerInnerOptions string string :=
  with_responseMeta {| meta_status := None; meta_headers := None |}
    (with_onError quiet_hook sample_array_batch).

Lemma sample_watched_array_fails :
  gate_failure sample_watched_array bad_batch_input (Some "ctx").
Proof.
  apply (inputs_gate sample_watched_array (VArr [VNum 1; VNum 2]));
    reflexivity.
Defined.

Lemma failure_hooks_in_order_witness :
  snd (requestHandlerInner sample_watched_array)
  = [EvCreateContext;
     EvGetErrorShape (getErrorFromUnknown bad_batch_input) Mutation None
       VUndefined (Some "ctx");
     EvOnError (getErrorFromUnknown bad_batch_input) None VUndefined
       (Some "ctx") Mutation;
     EvResponseMeta (Some "ctx") (Some ["a"; "b"]) Mutation
       [One (TRPCErrorResponse "BAD_REQUEST@undefined")]
       [getErrorFromUnknown bad_batch_input]].
Proof.
  exact (failure_hooks_in_order sample_watched_array
           bad_batch_input (Some "ctx")
           sample_watched_array_fails).
Defined.

(** A server adapter: reading the body fails when the URL of the request is
    [undefined]; the query is read off an object of strings; [setHeader] and
    [end] return. *)
#[local] Instance sample_outer : @OuterExternals string string := {|
  getPostBody := fun opts =>
    match req_url (base_req opts) with
    | VUndefined => inl (JsError "body too large")
    | _ => inr (VObj [])
    end;
  URLSearchParams_new := fun source =>
    match source with
    | VObj entries =>
        inr (map (fun kv => (fst kv, sample_render (snd kv))) entries)
    | _ => inr []
    end;
  res_setHeader := fun _ _ _ => inr tt;
  res_end := fun _ _ => inr tt;
  undefined_context := "undefined";
|}.

Lemma sample_adapter_returns : adapter_returns (O := sample_outer).
Proof.
  split; [|split; reflexivity].
  intros source. destruct source; by eexists.
Defined.

Definition sample_server (m : string) (code : option float)
  : @HTTPHandlerOptions string string :=
  {| base_req :=
       {| req_method := m; req_headers := [];
          req_query := VObj [("batch", VStr "1")]; req_url := VStr "/trpc" |};
     base_res :=
       {| statusCode := code;
          sent_headers := {[ "X-Powered-By" := HString "sample" ]};
          ended := [] |};
     base_path := "a,fail";
     base_router := sample_router;
     base_createContext := None;
     teardown := Some (fun _ => inl (JsError "teardown failed")) |}.

Lemma requestHandler_rejections_witness :
  returned (requestHandler (sample_server "POST" None))
  = inl (JsError "teardown failed").
Proof.
  apply (proj2 (proj2 (requestHandler_rejections (O := sample_outer)
                         (sample_server "POST" None)
                         (JsError "teardown failed"))
                  sample_adapter_returns sample_shapes sample_serializes)).
  right. exists (VObj []), (fun _ => inl (JsError "teardown failed")).
  repeat split.
Defined.


Lemma requestHandler_headers_witness :
  sent_headers (response (requestHandler (sample_server "POST" None)))
  = <[ "Content-Type" := HString "application/json" ]>
      {[ "X-Powered-By" := HString "sample" ]}
  /\ sent_headers (response (requestHandler (sample_server "HEAD" None)))
     = {[ "X-Powered-By" := HString "sample" ]}.
Proof.
  destruct (requestHandler_headers (O := sample_outer)
              (sample_server "POST" None) (VObj []) eq_refl)
    as (_ & _ & Hother).
  destruct (requestHandler_headers (O := sample_outer)
              (sample_server "HEAD" None) (VObj []) eq_refl)
    as (_ & Hhead & _).
  split.
  - destruct (requestHandlerInner
                (inner_options (O := sample_outer)
                   (sample_server "POST" None) (VObj []) [("batch", "1")]))
      as [[e|result] log] eqn:Hrun.
    + vm_compute in Hrun. discriminate Hrun.
    + apply (Hother ltac:(discriminate) [("batch", "1")] result log
               eq_refl Hrun eq_refl).
  - exact (Hhead eq_refl).
Defined.
